(** * WhatsApp phone update: normaliser, patient repository, sheet source
      and the update loop, embedded from the TypeScript sources.

    - [src-ts/phoneNormaliser.ts]  : [PhoneNormalizer.normalise]
    - [src-ts/infrastructure.ts]   : [InMemoryPatientRepository],
                                     [updateMetaData], [CsvSheetSource.loadRows],
                                     [UpdateReporter]
    - [src-ts/updateService.ts]    : [UpdateService.run]
    - [src-ts/domain.ts]           : the record types

    JavaScript strings are sequences of UTF-16 code units; they are modelled
    as lists of code units ([N]).  JavaScript numbers that only ever hold
    small integers (counters, day counts, epoch milliseconds of four-digit
    years) are modelled as [Z].  Objects that the program mutates in place
    live in the [patients] list of the repository and are referred to by
    their position in it. *)

From Stdlib Require Import ZArith NArith List Ascii String Lia Bool.
From Stdlib Require Import Permutation Sorted.
From stdpp Require Import gmap list sorting.

Open Scope Z_scope.

(** ** JavaScript strings *)

Module JsString.

Abbreviation char := N (only parsing).
Abbreviation jsstring := (list N) (only parsing).

(** An ASCII literal as a JavaScript string. *)
Definition str (s : string) : jsstring :=
  List.map N_of_ascii (list_ascii_of_string s).

(** [a === b] on strings. *)
Definition eqb (a b : jsstring) : bool := bool_decide (a = b).

(** [!s] for a string: only the empty string is falsy. *)
Definition falsy (s : jsstring) : bool :=
  match s with [] => true | _ => false end.

(** [s || d] *)
Definition orElse (s : option jsstring) (d : jsstring) : jsstring :=
  match s with
  | Some v => if falsy v then d else v
  | None => d
  end.

(** [s.startsWith(p)] *)
Fixpoint startsWith (p s : jsstring) : bool :=
  match p, s with
  | [], _ => true
  | _ :: _, [] => false
  | a :: p', b :: s' => N.eqb a b && startsWith p' s'
  end.

(** [s.slice(n)] for [0 <= n]. *)
Definition slice (n : nat) (s : jsstring) : jsstring := drop n s.

(** ECMAScript WhiteSpace and LineTerminator code points, the ones
    [String.prototype.trim] removes. *)
Definition isWhiteSpace (c : char) : bool :=
  ((9 <=? c) && (c <=? 13) || (c =? 32) || (c =? 160) || (c =? 5760)
   || (8192 <=? c) && (c <=? 8202) || (c =? 8232) || (c =? 8233)
   || (c =? 8239) || (c =? 8287) || (c =? 12288) || (c =? 65279))%N.

Fixpoint trimStart (s : jsstring) : jsstring :=
  match s with
  | c :: s' => if isWhiteSpace c then trimStart s' else s
  | [] => []
  end.

Definition trim (s : jsstring) : jsstring :=
  rev (trimStart (rev (trimStart s))).

(** [\d] (without the unicode flag: exactly [0-9]). *)
Definition isDigit (c : char) : bool := ((48 <=? c) && (c <=? 57))%N.

(** [/^\d+$/.test(s)] *)
Definition allDigits (s : jsstring) : bool :=
  match s with
  | [] => false
  | _ => forallb isDigit s
  end.

(** [s.padStart(w, "0")] *)
Definition padStart0 (w : nat) (s : jsstring) : jsstring :=
  repeat 48%N (w - length s)%nat ++ s.

(** [parseInt(s, 10)] for a string of decimal digits. *)
Definition parseInt (s : jsstring) : Z :=
  fold_left (fun acc c => 10 * acc + (Z.of_N c - 48)) s 0.

(** The decimal digits of a natural number, most significant first
    ([n.toString()] for an integer [0 <= n < 10^21]). *)
Fixpoint digitsOf (fuel : nat) (n : N) (acc : jsstring) : jsstring :=
  match fuel with
  | O => acc
  | S fuel' =>
      let acc' := (48 + n mod 10)%N :: acc in
      if (n / 10 =? 0)%N then acc' else digitsOf fuel' (n / 10)%N acc'
  end.

Definition toString (n : Z) : jsstring :=
  let m := Z.to_N n in
  digitsOf (S (N.to_nat (N.log2 m))) m [].

End JsString.
Import JsString.

(** ** Phone normaliser ([phoneNormaliser.ts]) *)

Record NormalisedPhone := build {
  raw : jsstring;
  canonical : option jsstring;   (* string | null *)
  valid : bool;
  reason : option jsstring       (* reason?: string *)
}.

Inductive PhoneFormat := e164 | local0.

Definition MIN_LEN : Z := 10.
Definition MAX_LEN : Z := 15.

(** [nonDigit = /[^+0-9]/g] as a predicate on one code unit. *)
Definition nonDigit (c : char) : bool := negb ((c =? 43)%N || isDigit c).

(** [s.replace(nonDigit, "")] *)
Definition replace_nonDigit (s : jsstring) : jsstring :=
  List.filter (fun c => negb (nonDigit c)) s.

(** [s.replace(leadingPlusCollapse, "")] with [leadingPlusCollapse = /^\++/]. *)
Fixpoint replace_leadingPlus (s : jsstring) : jsstring :=
  match s with
  | c :: s' => if (c =? 43)%N then replace_leadingPlus s' else s
  | [] => []
  end.

(** The first half of [normalise]: the string assigned to [canonical] by the
    prefix cascade, or the result object of an early [return]. *)
Definition classify (raw cleaned : jsstring) : NormalisedPhone + jsstring :=
  if startsWith (str "+62") cleaned then
    let digits := slice 1 cleaned in
    if allDigits digits then inr (str "+" ++ digits)
    else inl (build raw None false (Some (str "non_digit")))
  else if startsWith (str "62") cleaned then
    let rest := slice 2 cleaned in
    if allDigits rest then inr (str "+62" ++ rest)
    else inl (build raw None false (Some (str "non_digit")))
  else if startsWith (str "0") cleaned then
    let rest := slice 1 cleaned in
    if allDigits rest then inr (str "+62" ++ rest)
    else inl (build raw None false (Some (str "non_digit")))
  else
    if negb (allDigits cleaned) then
      inl (build raw None false (Some (str "non_digit")))
    else if (9 <=? Z.of_nat (length cleaned)) && (Z.of_nat (length cleaned) <=? 13)
    then inr (str "+62" ++ cleaned)
    else inl (build raw None false (Some (str "length"))).

(** [cleaned] as it stands when the prefix cascade starts. *)
Definition clean (raw : jsstring) : jsstring :=
  let cleaned := replace_nonDigit raw in
  if startsWith (str "+") cleaned
  then str "+" ++ replace_leadingPlus cleaned
  else cleaned.

(** [PhoneNormalizer.normalise], for a normaliser constructed with [format]. *)
Definition normalise (format : PhoneFormat) (rawInput : jsstring)
  : NormalisedPhone :=
  let raw := trim rawInput in
  if falsy raw then build raw None false (Some (str "empty")) else
  let cleaned := clean raw in
  match classify raw cleaned with
  | inl early => early
  | inr canonical =>
      if negb (startsWith (str "+62") canonical)
      then build raw None false (Some (str "bad_prefix"))
      else
        let digitsCount := Z.of_nat (length canonical) - 1 in
        if (digitsCount <? MIN_LEN) || (digitsCount >? MAX_LEN)
        then build raw None false (Some (str "length"))
        else
          let out := match format with
                     | local0 => str "0" ++ slice 3 canonical
                     | e164 => canonical
                     end in
          build raw (Some out) true None
  end.

(** [createDefaultPhoneNormalizer(format)]: an absent format means [e164]. *)
Definition createDefaultPhoneNormalizer (format : option PhoneFormat)
  : jsstring -> NormalisedPhone :=
  normalise (match format with Some f => f | None => e164 end).


(** ** Domain model ([domain.ts]) *)

Record SheetRow := mkSheetRow {
  lastUpdatedDate : jsstring;
  nik : jsstring;
  name : jsstring;
  rawPhone : jsstring
}.

Module PatientIdentifier.
Record t := mk { system : jsstring; value : jsstring }.
End PatientIdentifier.

Module PatientTelecom.
Record t := mk {
  system : jsstring;
  use : option jsstring;
  value : jsstring;
  rank : option Z
}.
End PatientTelecom.

(** The open part of a record ([[k: string]: unknown]) is kept as a list of
    fields whose values are never inspected. *)
Module PatientMeta.
Record t := mk {
  versionId : option jsstring;
  lastUpdated : option jsstring;
  extra : list (jsstring * jsstring)
}.
End PatientMeta.

Module PatientResource.
Record t := mk {
  resourceType : jsstring;
  id : jsstring;
  identifier : option (list PatientIdentifier.t);
  telecom : option (list PatientTelecom.t);
  meta : option PatientMeta.t;
  extra : list (jsstring * jsstring)
}.
End PatientResource.

Record UpdateStats := mkStats {
  totalRows : Z;
  validUpdated : Z;
  validUnchanged : Z;
  invalidFormat : Z;
  missingPatient : Z
}.

Definition NIK_SYSTEM : jsstring := str "https://fhir.kemkes.go.id/id/nik".

(** [IPhoneNormalizer]: anything with a [normalise] method. *)
Class IPhoneNormalizer := { normalise_of : jsstring -> NormalisedPhone }.

Definition PhoneNormalizer (format : PhoneFormat) : IPhoneNormalizer :=
  {| normalise_of := normalise format |}.

(** ** Sheet source ([CsvSheetSource.loadRows] in [infrastructure.ts]) *)

(** [s.split(",")] and friends: split at every occurrence of one code unit. *)
Fixpoint splitOn (sep : char) (s : jsstring) : list jsstring :=
  match s with
  | [] => [[]]
  | c :: s' =>
      if (c =? sep)%N then [] :: splitOn sep s'
      else match splitOn sep s' with
           | w :: ws => (c :: w) :: ws
           | [] => [[c]]
           end
  end.

(** [content.split(/\r?\n/)]: split at every line feed, dropping a carriage
    return that stands right before it. *)
Fixpoint splitLines (s : jsstring) : list jsstring :=
  match s with
  | [] => [[]]
  | c :: s' =>
      if (c =? 10)%N then [] :: splitLines s'
      else if (c =? 13)%N && startsWith [10%N] s' then splitLines s'
      else match splitLines s' with
           | w :: ws => (c :: w) :: ws
           | [] => [[c]]
           end
  end.

(** [header.indexOf(h)], [None] for [-1]. *)
Fixpoint indexOf (h : jsstring) (header : list jsstring) : option nat :=
  match header with
  | [] => None
  | x :: header' => if eqb x h then Some O else S <$> indexOf h header'
  end.

(** [(cols[i] || "").trim()] *)
Definition column (cols : list jsstring) (i : option nat) : jsstring :=
  trim (orElse (i ≫= fun n => cols !! n) []).

(** Lines 99-117 of [loadRows]: the rows in file order, from the text of
    the file. *)
Definition readRows (content : jsstring) : list SheetRow :=
  let lines :=
    List.filter (fun l => negb (falsy (trim l))) (splitLines content) in
  match lines with
  | [] => []
  | first :: rest =>
      let header := List.map trim (splitOn 44%N first) in
      let li := indexOf (str "last_updated_date") header in
      let ni := indexOf (str "nik_identifier") header in
      let na := indexOf (str "name") header in
      let pn := indexOf (str "phone_number") header in
      List.map
        (fun line =>
           let cols := splitOn 44%N line in
           mkSheetRow (column cols li) (column cols ni) (column cols na)
             (column cols pn))
        rest
  end.

(** [/^(\d{2})[\/-](\d{2})[\/-](\d{4})$/]: the three captured groups. *)
Definition isDateSeparator (c : char) : bool := ((c =? 47) || (c =? 45))%N.

Definition matchDate (d : jsstring)
  : option (jsstring * jsstring * jsstring) :=
  match d with
  | [d1; d2; s1; m1; m2; s2; y1; y2; y3; y4] =>
      if forallb isDigit [d1; d2; m1; m2; y1; y2; y3; y4]
         && isDateSeparator s1 && isDateSeparator s2
      then Some ([d1; d2], [m1; m2], [y1; y2; y3; y4])
      else None
  | _ => None
  end.

(** [Date.UTC(year, month, date)] on integers, after ECMA-262 (MakeDay,
    MakeDate, TimeClip); [None] stands for [NaN]. *)
Definition msPerDay : Z := 86400000.

Definition dayFromYear (y : Z) : Z :=
  365 * (y - 1970) + (y - 1969) / 4 - (y - 1901) / 100 + (y - 1601) / 400.

Definition inLeapYear (y : Z) : bool :=
  (y mod 4 =? 0) && (negb (y mod 100 =? 0) || (y mod 400 =? 0)).

Definition daysBeforeMonth (leap : bool) (mn : Z) : Z :=
  nth (Z.to_nat mn) [0; 31; 59; 90; 120; 151; 181; 212; 243; 273; 304; 334] 0
  + (if leap && (2 <=? mn) then 1 else 0).

Definition makeDay (year month date : Z) : Z :=
  let ym := year + month / 12 in
  let mn := month mod 12 in
  dayFromYear ym + daysBeforeMonth (inLeapYear ym) mn + date - 1.

Definition dateUTC (year month date : Z) : option Z :=
  let yr := if (0 <=? year) && (year <=? 99) then 1900 + year else year in
  let tv := makeDay yr month date * msPerDay in
  if Z.abs tv <=? 8640000000000000 then Some tv else None.

(** The local [parseDate] of [loadRows]. *)
Definition parseDate (d : jsstring) : Z :=
  if falsy d then 0 else
  match matchDate d with
  | None => 0
  | Some (dd, mm, yyyy) =>
      let ts := dateUTC (parseInt yyyy) (parseInt mm - 1) (parseInt dd) in
      match ts with
      | None => 0          (* isNaN(ts) ? 0 : ts *)
      | Some t => t
      end
  end.

(** The comparator handed to [rows.sort]. *)
Definition compareRows (a b : SheetRow) : Z :=
  parseDate (lastUpdatedDate a) - parseDate (lastUpdatedDate b).

(** [Array.prototype.sort] is stable: with a consistent comparator it returns
    the one arrangement that is ascending and keeps elements that compare
    equal in their original order.  Insertion from the right computes that
    arrangement: an element goes in front of the first element it does not
    exceed. *)
Fixpoint insertBy {A : Type} (cmp : A -> A -> Z) (x : A) (l : list A) : list A :=
  match l with
  | [] => [x]
  | y :: l' => if cmp x y <=? 0 then x :: l else y :: insertBy cmp x l'
  end.

Definition sortBy {A : Type} (cmp : A -> A -> Z) (l : list A) : list A :=
  fold_right (insertBy cmp) [] l.

(** Lines 118-134 of [loadRows]: the ordering step. *)
Definition sortRows (rows : list SheetRow) : list SheetRow :=
  sortBy compareRows rows.

(** [new CsvSheetSource(path).loadRows()], from the text of the file. *)
Definition loadRows (content : jsstring) : list SheetRow :=
  sortRows (readRows content).

(** ** Patient repository and metadata ([infrastructure.ts]) *)

Section Engine.

(** The two things the host supplies.  [(parseInt(suffix, 10) + 1).toString()]
    is exact integer arithmetic as long as the parsed value stays below
    [2^53]; beyond that the engine rounds to a double and may print an
    exponent, which is left to [unsafeIncrement].  [clock k] is the string
    the [k]-th call of [buildLastUpdatedTimestamp()] returns (it reads the
    wall clock and [Math.random()]). *)
Variable unsafeIncrement : jsstring -> jsstring.
Variable clock : nat -> jsstring.

Definition incrementToString (suffix : jsstring) : jsstring :=
  let n := parseInt suffix in
  if n <? 2 ^ 53 then toString (n + 1) else unsafeIncrement suffix.

Definition setVersionId (m : PatientMeta.t) (v : jsstring) : PatientMeta.t :=
  PatientMeta.mk (Some v) (PatientMeta.lastUpdated m) (PatientMeta.extra m).

Definition setLastUpdated (m : PatientMeta.t) (ts : jsstring) : PatientMeta.t :=
  PatientMeta.mk (PatientMeta.versionId m) (Some ts) (PatientMeta.extra m).

Definition setMeta (p : PatientResource.t) (m : PatientMeta.t)
  : PatientResource.t :=
  PatientResource.mk (PatientResource.resourceType p) (PatientResource.id p)
    (PatientResource.identifier p) (PatientResource.telecom p) (Some m)
    (PatientResource.extra p).

Definition setTelecom (p : PatientResource.t) (ts : list PatientTelecom.t)
  : PatientResource.t :=
  PatientResource.mk (PatientResource.resourceType p) (PatientResource.id p)
    (PatientResource.identifier p) (Some ts) (PatientResource.meta p)
    (PatientResource.extra p).

(** The value [updateMetaData] stores in [meta.versionId], from the value
    [vid] it finds there. *)
Definition nextVersionId (vid : option jsstring) : jsstring :=
  let fallback := orElse vid (str "v000") ++ str "-updated" in
  match vid with
  | Some v =>
      if startsWith (str "v") v then
        let suffix := slice 1 v in
        if allDigits suffix
        then str "v" ++ padStart0 3 (incrementToString suffix)
        else fallback
      else fallback
  | None => fallback
  end.

(** [updateMetaData(resource)], with [now] the fresh timestamp. *)
Definition updateMetaData (now : jsstring) (resource : PatientResource.t)
  : PatientResource.t :=
  let meta := match PatientResource.meta resource with
              | Some m => m
              | None => PatientMeta.mk None None []
              end in
  let meta := setLastUpdated meta now in
  let vid := PatientMeta.versionId meta in
  setMeta resource (setVersionId meta (nextVersionId vid)).

(** [t.system === "phone" && t.use === "mobile"] *)
Definition isMobilePhone (t : PatientTelecom.t) : bool :=
  eqb (PatientTelecom.system t) (str "phone")
  && match PatientTelecom.use t with
     | Some u => eqb u (str "mobile")
     | None => false
     end.

(** [existing.value = phone; existing.rank = 1] *)
Definition overwrite (existing : PatientTelecom.t) (phone : jsstring)
  : PatientTelecom.t :=
  PatientTelecom.mk (PatientTelecom.system existing)
    (PatientTelecom.use existing) phone (Some 1).

(** [InMemoryPatientRepository.applyPhone] on the patient object it is handed:
    the object after the call and the returned flag.  [existing] is a
    reference into the [telecom] array, so writing to it updates the array
    at the index where [find] stopped. *)
Definition applyPhone (now : jsstring) (patient : PatientResource.t)
    (phone : jsstring) : PatientResource.t * bool :=
  let telecom := default [] (PatientResource.telecom patient) in
  let patient := setTelecom patient telecom in
  match list_find (fun t => isMobilePhone t = true) telecom with
  | Some (i, existing) =>
      if eqb (PatientTelecom.value existing) phone then (patient, false)
      else
        let telecom := <[i := overwrite existing phone]> telecom in
        (updateMetaData now (setTelecom patient telecom), true)
  | None =>
      let telecom :=
        telecom ++ [PatientTelecom.mk (str "phone") (Some (str "mobile"))
                      phone (Some 1)] in
      (updateMetaData now (setTelecom patient telecom), true)
  end.

(** The repository: the [patients] array holds the patient objects, and
    [byNik] maps a NIK to a reference to one of them, here its position in
    [patients]. *)
Record InMemoryPatientRepository := mkRepo {
  patients : list PatientResource.t;
  byNik : gmap jsstring nat
}.

(** The inner loop of the constructor, for the patient at position [ref]. *)
Definition indexIdentifiers (ref : nat) (p : PatientResource.t)
    (m : gmap jsstring nat) : gmap jsstring nat :=
  fold_left
    (fun m ident =>
       if eqb (PatientIdentifier.system ident) NIK_SYSTEM
       then <[PatientIdentifier.value ident := ref]> m
       else m)
    (default [] (PatientResource.identifier p)) m.

Fixpoint indexPatients (ref : nat) (ps : list PatientResource.t)
    (m : gmap jsstring nat) : gmap jsstring nat :=
  match ps with
  | [] => m
  | p :: ps' => indexPatients (S ref) ps' (indexIdentifiers ref p m)
  end.

(** [new InMemoryPatientRepository(patients)] *)
Definition newRepository (ps : list PatientResource.t)
  : InMemoryPatientRepository :=
  mkRepo ps (indexPatients 0 ps ∅).

Definition findByNik (repo : InMemoryPatientRepository) (k : jsstring)
  : option nat :=
  byNik repo !! k.

Definition allPatients (repo : InMemoryPatientRepository)
  : list PatientResource.t :=
  patients repo.

(** [repo.applyPhone(patient, phone)] where [patient] is the reference [ref]
    obtained from [findByNik]: the object is updated in place. *)
Definition applyPhoneAt (now : jsstring) (repo : InMemoryPatientRepository)
    (ref : nat) (phone : jsstring) : InMemoryPatientRepository * bool :=
  match patients repo !! ref with
  | Some p =>
      let '(p', changed) := applyPhone now p phone in
      (mkRepo (<[ref := p']> (patients repo)) (byNik repo), changed)
  | None => (repo, false)
  end.

(** ** Reporter ([UpdateReporter] in [infrastructure.ts]) *)

Record InvalidRow := mkInvalidRow {
  invalid_nik : jsstring;
  invalid_raw : jsstring;
  invalid_reason : jsstring
}.

Record UpdateReporter := mkReporter {
  invalid : list InvalidRow;
  stats : UpdateStats
}.

(** The reporter as its constructor leaves it. *)
Definition newReporter : UpdateReporter :=
  mkReporter [] (mkStats 0 0 0 0 0).

Definition recordInvalid (r : UpdateReporter) (row : SheetRow)
    (reason : jsstring) : UpdateReporter :=
  let s := stats r in
  mkReporter
    (invalid r ++ [mkInvalidRow (nik row) (rawPhone row) reason])
    (if eqb reason (str "missing_patient")
     then mkStats (totalRows s) (validUpdated s) (validUnchanged s)
            (invalidFormat s) (missingPatient s + 1)
     else mkStats (totalRows s) (validUpdated s) (validUnchanged s)
            (invalidFormat s + 1) (missingPatient s)).

Definition incTotal (r : UpdateReporter) : UpdateReporter :=
  let s := stats r in
  mkReporter (invalid r)
    (mkStats (totalRows s + 1) (validUpdated s) (validUnchanged s)
       (invalidFormat s) (missingPatient s)).

Definition incUpdated (r : UpdateReporter) : UpdateReporter :=
  let s := stats r in
  mkReporter (invalid r)
    (mkStats (totalRows s) (validUpdated s + 1) (validUnchanged s)
       (invalidFormat s) (missingPatient s)).

Definition incUnchanged (r : UpdateReporter) : UpdateReporter :=
  let s := stats r in
  mkReporter (invalid r)
    (mkStats (totalRows s) (validUpdated s) (validUnchanged s + 1)
       (invalidFormat s) (missingPatient s)).

Definition buildStats (r : UpdateReporter) : UpdateStats := stats r.

(** What [writeOutputs] hands to the file system: the patient bundle and the
    statistics (both before [JSON.stringify]) and the text of
    [invalid_rows.csv], written only when a row was rejected. *)
Record Outputs := mkOutputs {
  patients_after_phone_update : list PatientResource.t;
  report : UpdateStats;
  invalid_rows_csv : option jsstring
}.

Fixpoint join (sep : jsstring) (l : list jsstring) : jsstring :=
  match l with
  | [] => []
  | [x] => x
  | x :: l' => x ++ sep ++ join sep l'
  end.

Definition writeOutputs (r : UpdateReporter) (ps : list PatientResource.t)
  : Outputs :=
  mkOutputs ps (stats r)
    (match invalid r with
     | [] => None
     | _ =>
         let header := str "nik,raw_phone,reason" ++ [10%N] in
         let body :=
           join [10%N]
             (List.map
                (fun i => invalid_nik i ++ str "," ++ invalid_raw i
                          ++ str "," ++ invalid_reason i)
                (invalid r)) in
         Some (header ++ body ++ [10%N])
     end).

(** ** The update loop ([UpdateService.run] in [updateService.ts]) *)

(** The objects the service holds, and how many timestamps have been drawn. *)
Record Service := mkService {
  repo : InMemoryPatientRepository;
  reporter : UpdateReporter;
  ticks : nat
}.

(** The canonical value when [!norm.valid || !norm.canonical] is false. *)
Definition accepted (norm : NormalisedPhone) : option jsstring :=
  if valid norm then
    match canonical norm with
    | Some c => if falsy c then None else Some c
    | None => None
    end
  else None.

Context {normalizer : IPhoneNormalizer}.

(** One iteration of the [for] loop. *)
Definition processRow (s : Service) (row : SheetRow) : Service :=
  let reporter := incTotal (reporter s) in
  let norm := normalise_of (rawPhone row) in
  match accepted norm with
  | None =>
      mkService (repo s)
        (recordInvalid reporter row (orElse (reason norm) (str "invalid")))
        (ticks s)
  | Some phone =>
      match findByNik (repo s) (nik row) with
      | None =>
          mkService (repo s)
            (recordInvalid reporter row (str "missing_patient")) (ticks s)
      | Some patient =>
          let '(repo', changed) :=
            applyPhoneAt (clock (ticks s)) (repo s) patient phone in
          if changed
          then mkService repo' (incUpdated reporter) (S (ticks s))
          else mkService repo' (incUnchanged reporter) (ticks s)
      end
  end.

(** [run()]: [rows] is what [this.sheet.loadRows()] returned. *)
Definition run (s : Service) (rows : list SheetRow) : Service * Outputs :=
  let s' := fold_left processRow rows s in
  (s', writeOutputs (reporter s') (allPatients (repo s'))).

End Engine.

(** ** Vocabulary of the properties *)

(** An optional leading [+] followed by between [lo] and [hi] decimal digits,
    and nothing else. *)
Definition optPlusDigits (lo hi : Z) (s : jsstring) : bool :=
  let ds := if startsWith (str "+") s then slice 1 s else s in
  forallb isDigit ds
  && (lo <=? Z.of_nat (length ds)) && (Z.of_nat (length ds) <=? hi).

(** The contact channel [applyPhone] locates: the first one whose system is
    [phone] and whose use is [mobile]. *)
Definition mobileChannel (p : PatientResource.t) : option PatientTelecom.t :=
  snd <$> list_find (fun t => isMobilePhone t = true)
            (default [] (PatientResource.telecom p)).

Definition mobilePhoneValue (p : PatientResource.t) : option jsstring :=
  PatientTelecom.value <$> mobileChannel p.

Definition versionIdOf (p : PatientResource.t) : option jsstring :=
  PatientResource.meta p ≫= PatientMeta.versionId.

Definition lastUpdatedOf (p : PatientResource.t) : option jsstring :=
  PatientResource.meta p ≫= PatientMeta.lastUpdated.

(** The sum of the four outcome counters. *)
Definition outcomes (s : UpdateStats) : Z :=
  validUpdated s + validUnchanged s + invalidFormat s + missingPatient s.

(** The number a row is ordered by. *)
Definition rowKey (r : SheetRow) : Z := parseDate (lastUpdatedDate r).

(** A service as [index.ts] wires it: a repository over the loaded patients
    and a fresh reporter. *)
Definition newService (ps : list PatientResource.t) : Service :=
  mkService (newRepository ps) newReporter 0.

(** The version suffix the specification describes: the incremented number
    padded with zeros to the width the suffix had. *)
Definition repadToOriginalWidth (suffix : jsstring) : jsstring :=
  padStart0 (length suffix) (toString (parseInt suffix + 1)).

(** ** Sample data *)

Module Sample.

Definition nikA : jsstring := str "3171044203920001".
Definition nikB : jsstring := str "3578106207900002".

(** A patient without telecom entries. *)
Definition patient (pid : jsstring) (niks : list jsstring) (version : jsstring)
  : PatientResource.t :=
  PatientResource.mk (str "Patient") pid
    (Some (List.map (PatientIdentifier.mk NIK_SYSTEM) niks)) None
    (Some (PatientMeta.mk (Some version) None [])) [].

Definition mobile (v : jsstring) : PatientTelecom.t :=
  PatientTelecom.mk (str "phone") (Some (str "mobile")) v (Some 1).

Definition withTelecom (p : PatientResource.t) (ts : list PatientTelecom.t)
  : PatientResource.t :=
  setTelecom p ts.

Definition row (date k phone : jsstring) : SheetRow :=
  mkSheetRow date k (str "NAME") phone.

(** One patient known under one NIK, and one known under two. *)
Definition onePatient : list PatientResource.t :=
  [patient (str "patient-001") [nikA] (str "v001")].

Definition twoNiks : list PatientResource.t :=
  [patient (str "patient-001") [nikA; nikB] (str "v001")].


Definition rowsAB : list SheetRow :=
  [row (str "01-01-2025") nikA (str "0811111111111");
   row (str "02-01-2025") nikA (str "0822222222222");
   row (str "03-01-2025") nikB (str "0833333333333")].

Definition noIncrement : jsstring -> jsstring := fun _ => [].
Definition fixedClock : nat -> jsstring := fun _ => str "2025-09-23T10:15:30.123456+07:00".

End Sample.

(** ** Vocabulary of the further properties *)

(** The patient carries [k] as a value of an identifier of the NIK system. *)
Definition hasNik (k : jsstring) (p : PatientResource.t) : bool :=
  existsb
    (fun ident =>
       eqb (PatientIdentifier.system ident) NIK_SYSTEM
       && eqb (PatientIdentifier.value ident) k)
    (default [] (PatientResource.identifier p)).


(** The lines of a sheet that [loadRows] keeps, and the header it reads off
    the first of them. *)
Definition nonBlankLines (content : jsstring) : list jsstring :=
  List.filter (fun l => negb (falsy (trim l))) (splitLines content).

Definition sheetHeader (content : jsstring) : list jsstring :=
  match nonBlankLines content with
  | [] => []
  | first :: _ => List.map trim (splitOn 44%N first)
  end.

(** The number of days of month [m] (1 to 12) in year [y]. *)
Definition daysInMonth (y m : Z) : Z :=
  nth (Z.to_nat (m - 1))
    [31; if inLeapYear y then 29 else 28; 31; 30; 31; 30; 31; 31; 30; 31; 30; 31]
    0.

(** ** Timestamps ([buildLastUpdatedTimestamp] in [infrastructure.ts]) *)

(** What the function reads off the [Date] object: local calendar fields
    and the offset to UTC in minutes. *)
Record DateFields := mkDateFields {
  getFullYear : Z;
  getMonth : Z;
  getDate : Z;
  getHours : Z;
  getMinutes : Z;
  getSeconds : Z;
  getMilliseconds : Z;
  getTimezoneOffset : Z
}.

(** [n.toString()] for an integer of magnitude below [10^21]. *)
Definition numberToString (n : Z) : jsstring :=
  if n <? 0 then str "-" ++ toString (- n) else toString n.

(** [buildLastUpdatedTimestamp(date)], with [random] the value of
    [Math.floor(Math.random() * 1000)]. *)
Definition buildLastUpdatedTimestamp (now : DateFields) (random : Z)
  : jsstring :=
  let tzMinutes := getTimezoneOffset now in
  let offsetTotalMinutes := - tzMinutes in
  let sign := if offsetTotalMinutes >=? 0 then str "+" else str "-" in
  let absMinutes := Z.abs offsetTotalMinutes in
  let offHours := padStart0 2 (numberToString (absMinutes / 60)) in
  let offMins := padStart0 2 (numberToString (absMinutes mod 60)) in
  let ms := padStart0 3 (numberToString (getMilliseconds now)) in
  let pseudoMicros := ms ++ padStart0 3 (numberToString random) in
  numberToString (getFullYear now) ++ str "-"
  ++ padStart0 2 (numberToString (getMonth now + 1)) ++ str "-"
  ++ padStart0 2 (numberToString (getDate now)) ++ str "T"
  ++ padStart0 2 (numberToString (getHours now)) ++ str ":"
  ++ padStart0 2 (numberToString (getMinutes now)) ++ str ":"
  ++ padStart0 2 (numberToString (getSeconds now)) ++ str "."
  ++ pseudoMicros ++ sign ++ offHours ++ str ":" ++ offMins.

(** [/^\d{4}-\d{2}-\d{2}T\d{2}:\d{2}:\d{2}\.\d{6}[+-]\d{2}:\d{2}$/], the
    shape of [meta.lastUpdated] in the patient bundle. *)
Definition isTimestampShape (s : jsstring) : bool :=
  match s with
  | [y1; y2; y3; y4; h1; m1; m2; h2; d1; d2; t; hh1; hh2; c1; mi1; mi2; c2;
     s1; s2; dot; f1; f2; f3; f4; f5; f6; sg; o1; o2; c3; o3; o4] =>
      forallb isDigit
        [y1; y2; y3; y4; m1; m2; d1; d2; hh1; hh2; mi1; mi2; s1; s2;
         f1; f2; f3; f4; f5; f6; o1; o2; o3; o4]
      && (h1 =? 45)%N && (h2 =? 45)%N && (t =? 84)%N && (c1 =? 58)%N
      && (c2 =? 58)%N && (dot =? 46)%N && ((sg =? 43) || (sg =? 45))%N
      && (c3 =? 58)%N
  | _ => false
  end.
(** * Properties *)

(** ** Strings *)

Lemma eqb_eq (a b : jsstring) : eqb a b = true <-> a = b.
Proof. unfold eqb. apply bool_decide_eq_true. Qed.

Lemma eqb_refl (a : jsstring) : eqb a a = true.
Proof. by apply eqb_eq. Qed.

Lemma eqb_neq (a b : jsstring) : eqb a b = false <-> a <> b.
Proof. unfold eqb. apply bool_decide_eq_false. Qed.

Lemma startsWith_app (p s : jsstring) :
  startsWith p s = true <-> exists t, s = p ++ t.
Proof.
  revert s. induction p as [|a p IH]; intros s; simpl.
  - split; [eauto | done].
  - destruct s as [|b s].
    + split; [done | intros [t Ht]; discriminate].
    + rewrite andb_true_iff, N.eqb_eq, IH. split.
      * intros [-> [t ->]]. eauto.
      * intros [t Ht]. injection Ht as -> ->. eauto.
Qed.

Lemma allDigits_forallb (s : jsstring) :
  allDigits s = true -> forallb isDigit s = true /\ s <> [].
Proof. destruct s; simpl; [discriminate | auto]. Qed.

(** ** Normaliser *)

(** Whatever the prefix cascade assigns to [canonical] is ["+62"] followed by
    digits only. *)
Lemma classify_inr (raw cleaned c : jsstring) :
  classify raw cleaned = inr c ->
  exists rest, c = str "+62" ++ rest /\ forallb isDigit rest = true.
Proof.
  unfold classify, slice.
  destruct (startsWith (str "+62") cleaned) eqn:E1.
  { apply startsWith_app in E1 as [t ->].
    destruct (allDigits _) eqn:D; [|discriminate].
    intros [= <-]. apply allDigits_forallb in D as [D _].
    exists t. split; [reflexivity|]. simpl in D. apply D. }
  destruct (startsWith (str "62") cleaned) eqn:E2.
  { destruct (allDigits _) eqn:D; [|discriminate].
    intros [= <-]. apply allDigits_forallb in D as [D _]. eauto. }
  destruct (startsWith (str "0") cleaned) eqn:E3.
  { destruct (allDigits _) eqn:D; [|discriminate].
    intros [= <-]. apply allDigits_forallb in D as [D _]. eauto. }
  destruct (allDigits cleaned) eqn:D; simpl; [|discriminate].
  destruct (_ && _); [|discriminate].
  intros [= <-]. apply allDigits_forallb in D as [D _]. eauto.
Qed.

(** The three ways [normalise] can end once the input is not blank. *)
Lemma normalise_cases (format : PhoneFormat) (rawInput : jsstring) :
  let r := normalise format rawInput in
  (valid r = false /\ canonical r = None /\
   (reason r = Some (str "empty") \/ reason r = Some (str "non_digit")
    \/ reason r = Some (str "length")))
  \/
  (exists rest,
      forallb isDigit rest = true /\
      10 <= Z.of_nat (length rest) + 2 <= 15 /\
      valid r = true /\ reason r = None /\
      canonical r = Some (match format with
                          | e164 => str "+62" ++ rest
                          | local0 => str "0" ++ rest
                          end)).
Proof.
  unfold normalise.
  destruct (falsy (trim rawInput)); [left; simpl; auto|].
  destruct (classify _ _) as [early|c] eqn:C.
  - left. revert C. unfold classify.
    repeat match goal with
           | |- context [if ?b then _ else _] => destruct b
           end; intros [= <-]; simpl; auto.
  - apply classify_inr in C as [rest [-> D]].
    change (startsWith (str "+62") (str "+62" ++ rest)) with true. simpl negb.
    cbv iota.
    destruct (_ || _) eqn:L; [left; simpl; auto|].
    right. exists rest. apply orb_false_iff in L as [L1 L2].
    unfold MIN_LEN, MAX_LEN in *.
    rewrite length_app in L1, L2. change (length (str "+62")) with 3%nat in *.
    apply Z.ltb_ge in L1. rewrite Z.gtb_ltb in L2. apply Z.ltb_ge in L2.
    split; [done|]. split; [lia|]. simpl. split; [done|]. split; [done|].
    by destruct format.
Qed.

(** The guard [!canonical.startsWith("+62")] is never taken. *)
Lemma classify_prefix (raw cleaned c : jsstring) :
  classify raw cleaned = inr c -> startsWith (str "+62") c = true.
Proof. intros C. by apply classify_inr in C as [rest [-> _]]. Qed.

(** In either format a valid canonical value is an optional [+] and 9 to 15
    digits. *)
Lemma normalise_valid_optPlusDigits (format : PhoneFormat) (rawInput : jsstring) :
  valid (normalise format rawInput) = true ->
  exists c, canonical (normalise format rawInput) = Some c /\
            optPlusDigits 9 15 c = true.
Proof.
  intros V.
  destruct (normalise_cases format rawInput) as [[V' _]|[rest H]];
    [congruence|].
  destruct H as (D & L & _ & _ & C). rewrite C. eexists. split; [done|].
  unfold optPlusDigits.
  destruct format.
  - change (startsWith (str "+") (str "+62" ++ rest)) with true. cbv iota.
    change (slice 1 (str "+62" ++ rest)) with (str "62" ++ rest).
    rewrite length_app. change (length (str "62")) with 2%nat.
    cbn [forallb app str List.map list_ascii_of_string]. simpl forallb.
    rewrite D. simpl. apply andb_true_iff. split; apply Z.leb_le; lia.
  - change (startsWith (str "+") (str "0" ++ rest)) with false. cbv iota.
    rewrite length_app. change (length (str "0")) with 1%nat.
    simpl forallb. rewrite D. simpl. apply andb_true_iff.
    split; apply Z.leb_le; lia.
Qed.

(** C4 (as stated, refuted): ["62abc123"] is not rejected with reason
    ["non_digit"]: the letters are removed before the prefix cascade runs,
    and what is left, ["62123"], is rejected for its length. *)
Lemma normalise_62abc123_not_non_digit :
  ~ (forall format,
        (valid (normalise format (str "890123")) = false /\
         reason (normalise format (str "890123")) = Some (str "length")) /\
        (valid (normalise format (str "62abc123")) = false /\
         reason (normalise format (str "62abc123")) = Some (str "non_digit"))).
Proof. intros H. destruct (H e164) as [_ [_ H2]]. discriminate H2. Qed.

(** C4 (amended): for either output format the normaliser rejects ["890123"]
    as invalid with reason ["length"], and rejects ["62abc123"] as invalid,
    the reason being ["length"] as well. *)
Theorem normalise_rejections (format : PhoneFormat) :
  (valid (normalise format (str "890123")) = false /\
   canonical (normalise format (str "890123")) = None /\
   reason (normalise format (str "890123")) = Some (str "length")) /\
  (valid (normalise format (str "62abc123")) = false /\
   canonical (normalise format (str "62abc123")) = None /\
   reason (normalise format (str "62abc123")) = Some (str "length")).
Proof. destruct format; repeat split; reflexivity. Qed.

(** C7 (as stated, refuted): in the [local0] format a valid result can have
    only nine digits: ["+6281234567"] passes the length check with its ten
    digits and is then projected to ["081234567"]. *)
Lemma normalise_local0_nine_digits :
  ~ (forall format rawInput,
        valid (normalise format rawInput) = true ->
        exists c, canonical (normalise format rawInput) = Some c /\
                  optPlusDigits 10 15 c = true).
Proof.
  intros H. destruct (H local0 (str "+6281234567") eq_refl) as [c [Hc Hs]].
  injection Hc as <-. discriminate Hs.
Qed.

(** C7 (amended): for every input string, a valid result carries a canonical
    value that is, in the [e164] format, a [+] followed by 10 to 15 digits
    and, in the [local0] format, 9 to 14 digits without a [+]; it contains no
    other characters. *)
Theorem normalise_valid_shape (format : PhoneFormat) (rawInput : jsstring) :
  valid (normalise format rawInput) = true ->
  exists ds,
    forallb isDigit ds = true /\
    match format with
    | e164 =>
        canonical (normalise format rawInput) = Some (str "+" ++ ds) /\
        10 <= Z.of_nat (length ds) <= 15
    | local0 =>
        canonical (normalise format rawInput) = Some ds /\
        9 <= Z.of_nat (length ds) <= 14
    end.
Proof.
  intros V.
  destruct (normalise_cases format rawInput) as [[V' _]|[rest H]];
    [congruence|].
  destruct H as (D & L & _ & _ & C).
  destruct format.
  - exists (str "62" ++ rest). rewrite C. split; [|split].
    + simpl. exact D.
    + reflexivity.
    + rewrite length_app. change (length (str "62")) with 2%nat. lia.
  - exists (str "0" ++ rest). rewrite C. split; [|split].
    + simpl. exact D.
    + reflexivity.
    + rewrite length_app. change (length (str "0")) with 1%nat. lia.
Qed.

Lemma normalise_valid_shape_witness :
  exists ds,
    forallb isDigit ds = true /\
    canonical (normalise local0 (str "6285678901234")) = Some ds /\
    9 <= Z.of_nat (length ds) <= 14.
Proof. apply (normalise_valid_shape local0 (str "6285678901234")). reflexivity. Defined.

(** C8: ["+62 812-3456-7890"] normalises to the valid ["+6281234567890"] in
    the [e164] format and to the valid ["081234567890"] in the [local0]
    format. *)
Theorem normalise_by_format :
  (valid (normalise e164 (str "+62 812-3456-7890")) = true /\
   canonical (normalise e164 (str "+62 812-3456-7890"))
   = Some (str "+6281234567890")) /\
  (valid (normalise local0 (str "+62 812-3456-7890")) = true /\
   canonical (normalise local0 (str "+62 812-3456-7890"))
   = Some (str "081234567890")).
Proof. repeat split; reflexivity. Qed.

(** C10: for every input and both formats the result never has the reason
    ["bad_prefix"], because the prefix cascade only ever assigns strings
    that begin with ["+62"]. *)
Theorem normalise_never_bad_prefix (format : PhoneFormat) (rawInput : jsstring) :
  reason (normalise format rawInput) <> Some (str "bad_prefix").
Proof.
  destruct (normalise_cases format rawInput) as [(_ & _ & [R|[R|R]])|[rest H]].
  - rewrite R. discriminate.
  - rewrite R. discriminate.
  - rewrite R. discriminate.
  - destruct H as (_ & _ & _ & R & _). rewrite R. discriminate.
Qed.

(** ** Repository: [applyPhone] *)

Section ApplyPhone.

Variable unsafeIncrement : jsstring -> jsstring.

Lemma setTelecom_same (p : PatientResource.t) (ts : list PatientTelecom.t) :
  PatientResource.telecom p = Some ts -> setTelecom p ts = p.
Proof. destruct p; simpl; intros ->; reflexivity. Qed.

Lemma isMobilePhone_overwrite (t : PatientTelecom.t) (phone : jsstring) :
  isMobilePhone (overwrite t phone) = isMobilePhone t.
Proof. reflexivity. Qed.

(** The three paths of [applyPhone]: the located channel already holds the
    value; it holds another value; there is no such channel. *)
Lemma applyPhone_paths (now : jsstring) (p : PatientResource.t)
    (phone : jsstring) :
  let ts := default [] (PatientResource.telecom p) in
  (exists i existing,
      list_find (fun t => isMobilePhone t = true) ts = Some (i, existing) /\
      PatientTelecom.value existing = phone /\
      applyPhone unsafeIncrement now p phone = (p, false))
  \/
  (exists i existing,
      list_find (fun t => isMobilePhone t = true) ts = Some (i, existing) /\
      PatientTelecom.value existing <> phone /\
      applyPhone unsafeIncrement now p phone
      = (updateMetaData unsafeIncrement now
           (setTelecom p (<[i := overwrite existing phone]> ts)), true))
  \/
  (list_find (fun t => isMobilePhone t = true) ts = None /\
   applyPhone unsafeIncrement now p phone
   = (updateMetaData unsafeIncrement now
        (setTelecom p
           (ts ++ [PatientTelecom.mk (str "phone") (Some (str "mobile"))
                     phone (Some 1)])), true)).
Proof.
  intros ts. unfold applyPhone. fold ts.
  destruct (list_find _ ts) as [[i existing]|] eqn:F.
  - destruct (eqb (PatientTelecom.value existing) phone) eqn:E.
    + left. exists i, existing. apply eqb_eq in E. split_and!; [done..|].
      f_equal. apply setTelecom_same.
      subst ts. destruct (PatientResource.telecom p); [done|].
      discriminate F.
    + right; left. exists i, existing. apply eqb_neq in E. done.
  - right; right. done.
Qed.

(** After any call the located channel holds the value that was applied. *)
Lemma applyPhone_mobileChannel (now : jsstring) (p : PatientResource.t)
    (phone : jsstring) :
  exists i t,
    list_find (fun t => isMobilePhone t = true)
      (default [] (PatientResource.telecom (applyPhone unsafeIncrement now p phone).1))
    = Some (i, t) /\
    PatientTelecom.value t = phone.
Proof.
  destruct (applyPhone_paths now p phone)
    as [(i & t & F & V & ->)|[(i & t & F & V & ->)|(F & ->)]]; simpl.
  - eauto.
  - exists i, (overwrite t phone). split; [|done].
    apply list_find_Some in F as (L & M & Least).
    apply list_find_Some. split_and!.
    + apply list_lookup_insert_eq. eauto using lookup_lt_Some.
    + done.
    + intros j y Hj Hlt. rewrite list_lookup_insert_ne in Hj by lia. eauto.
  - eexists _, _. split.
    { rewrite list_find_app_r by done. simpl. reflexivity. }
    reflexivity.
Qed.




End ApplyPhone.

Lemma filter_at_most_one {A : Type} (f : A -> bool) (l : list A) (x y : A) :
  (length (List.filter f l) <= 1)%nat ->
  x ∈ l -> y ∈ l -> f x = true -> f y = true -> x = y.
Proof.
  intros L Hx Hy Fx Fy.
  assert (In x (List.filter f l)) as Ix.
  { apply filter_In. split; [by apply list_elem_of_In|done]. }
  assert (In y (List.filter f l)) as Iy.
  { apply filter_In. split; [by apply list_elem_of_In|done]. }
  destruct (List.filter f l) as [|z [|z' r]]; simpl in *; [done| |lia].
  destruct Ix as [<-|[]], Iy as [<-|[]]. done.
Qed.

(** In a record with at most one phone/mobile channel, any such channel is
    the one [applyPhone] locates. *)
Lemma mobileChannel_unique (patient : PatientResource.t) (t : PatientTelecom.t) :
  (length (List.filter isMobilePhone
             (default [] (PatientResource.telecom patient))) <= 1)%nat ->
  t ∈ default [] (PatientResource.telecom patient) ->
  isMobilePhone t = true ->
  mobileChannel patient = Some t.
Proof.
  intros L In M. unfold mobileChannel.
  destruct (list_find _ _) as [[i t']|] eqn:F.
  - apply list_find_Some in F as (Li & M' & _). simpl. f_equal.
    apply (filter_at_most_one isMobilePhone _ t' t L); [|done..].
    by eapply list_elem_of_lookup_2.
  - apply list_find_None in F. rewrite Forall_forall in F.
    by destruct (F t In).
Qed.

(** The bound on the number of phone/mobile channels cannot be dropped from
    the first part of the theorem below: [find] stops at the first such
    channel, so a record that holds the value on a second one is
    overwritten. *)
Remark applyPhone_matches_first_only :
  ~ (forall unsafeIncrement now patient phone,
        (exists t, t ∈ default [] (PatientResource.telecom patient) /\
                   isMobilePhone t = true /\
                   PatientTelecom.value t = phone) ->
        applyPhone unsafeIncrement now patient phone = (patient, false)).
Proof.
  intros H.
  pose (ch v := PatientTelecom.mk (str "phone") (Some (str "mobile")) v None).
  pose (p := PatientResource.mk (str "Patient") (str "p1") None
               (Some [ch (str "+6281111111111"); ch (str "+6282222222222")])
               (Some (PatientMeta.mk (Some (str "v001")) None [])) []).
  specialize (H (fun _ => []) (str "T") p (str "+6282222222222")).
  assert (applyPhone (fun _ => []) (str "T") p (str "+6282222222222")
          = (p, false)) as E.
  { apply H. exists (ch (str "+6282222222222")). split; [|done].
    apply list_elem_of_In. simpl. auto. }
  vm_compute in E. discriminate E.
Qed.

(** C2: [applyPhone] is idempotent.  On every patient record of the data
    model, that is with at most one phone/mobile channel, and for every
    canonical value: if the record has a channel with system [phone] and use
    [mobile] whose value equals the canonical value, the call returns
    [false] and leaves the record as it was, [meta.versionId] and
    [meta.lastUpdated] included.  On any record at all this holds when the
    channel the call locates (the first such channel) has the value; and
    applying the same value a second time returns [false] and changes
    nothing more. *)
Theorem applyPhone_idempotent (unsafeIncrement : jsstring -> jsstring)
    (now : jsstring) (patient : PatientResource.t) (phone : jsstring) :
  ((length (List.filter isMobilePhone
              (default [] (PatientResource.telecom patient))) <= 1)%nat ->
   forall t,
     t ∈ default [] (PatientResource.telecom patient) ->
     isMobilePhone t = true ->
     PatientTelecom.value t = phone ->
     applyPhone unsafeIncrement now patient phone = (patient, false) /\
     versionIdOf (applyPhone unsafeIncrement now patient phone).1
     = versionIdOf patient /\
     lastUpdatedOf (applyPhone unsafeIncrement now patient phone).1
     = lastUpdatedOf patient)
  /\
  (forall existing,
      mobileChannel patient = Some existing ->
      PatientTelecom.value existing = phone ->
      applyPhone unsafeIncrement now patient phone = (patient, false) /\
      versionIdOf (applyPhone unsafeIncrement now patient phone).1
      = versionIdOf patient /\
      lastUpdatedOf (applyPhone unsafeIncrement now patient phone).1
      = lastUpdatedOf patient)
  /\
  (forall now',
      let once := (applyPhone unsafeIncrement now patient phone).1 in
      applyPhone unsafeIncrement now' once phone = (once, false)).
Proof.
  assert (forall now p existing,
             mobileChannel p = Some existing ->
             PatientTelecom.value existing = phone ->
             applyPhone unsafeIncrement now p phone = (p, false)) as Same.
  { intros now0 p existing M V. unfold mobileChannel in M.
    destruct (applyPhone_paths unsafeIncrement now0 p phone)
      as [(i & t & F & _ & E)|[(i & t & F & V' & _)|(F & _)]].
    - exact E.
    - rewrite F in M. simpl in M. congruence.
    - rewrite F in M. discriminate M. }
  split; [|split].
  - intros L t In M V.
    rewrite (Same now patient t (mobileChannel_unique patient t L In M) V).
    done.
  - intros existing M V. rewrite (Same now patient existing M V). done.
  - intros now' once.
    destruct (applyPhone_mobileChannel unsafeIncrement now patient phone)
      as (i & t & F & V).
    apply (Same now' once t); [|done].
    unfold mobileChannel, once. by rewrite F.
Qed.

Lemma applyPhone_idempotent_witness :
  applyPhone Sample.noIncrement (Sample.fixedClock 0)
    (Sample.withTelecom (Sample.patient (str "patient-001") [Sample.nikA] (str "v001"))
       [PatientTelecom.mk (str "phone") (Some (str "home")) (str "0215550000") None;
        Sample.mobile (str "+6281234567890")])
    (str "+6281234567890")
  = (Sample.withTelecom (Sample.patient (str "patient-001") [Sample.nikA] (str "v001"))
       [PatientTelecom.mk (str "phone") (Some (str "home")) (str "0215550000") None;
        Sample.mobile (str "+6281234567890")], false).
Proof.
  apply (proj1 (applyPhone_idempotent Sample.noIncrement (Sample.fixedClock 0)
                  (Sample.withTelecom
                     (Sample.patient (str "patient-001") [Sample.nikA] (str "v001"))
                     [PatientTelecom.mk (str "phone") (Some (str "home"))
                        (str "0215550000") None;
                      Sample.mobile (str "+6281234567890")])
                  (str "+6281234567890"))
               ltac:(simpl; lia)
               (Sample.mobile (str "+6281234567890"))).
  - apply list_elem_of_further, list_elem_of_here.
  - reflexivity.
  - reflexivity.
Defined.



(** ** Decimal numerals *)

Lemma parseInt_from_app (s t : jsstring) (a : Z) :
  fold_left (fun acc c => 10 * acc + (Z.of_N c - 48)) (s ++ t) a
  = fold_left (fun acc c => 10 * acc + (Z.of_N c - 48)) t
      (fold_left (fun acc c => 10 * acc + (Z.of_N c - 48)) s a).
Proof. apply fold_left_app. Qed.

Lemma parseInt_nonneg (s : jsstring) (a : Z) :
  forallb isDigit s = true -> 0 <= a ->
  0 <= fold_left (fun acc c => 10 * acc + (Z.of_N c - 48)) s a.
Proof.
  revert a. induction s as [|c s IH]; intros a D A; simpl in *; [done|].
  apply andb_true_iff in D as [Dc D]. apply IH; [done|].
  unfold isDigit in Dc. apply andb_true_iff in Dc as [Lo Hi].
  apply N.leb_le in Lo, Hi. lia.
Qed.

Lemma digitsOf_S (fuel : nat) (n : N) (acc : jsstring) :
  digitsOf (S fuel) n acc
  = if (n / 10 =? 0)%N then (48 + n mod 10)%N :: acc
    else digitsOf fuel (n / 10)%N ((48 + n mod 10)%N :: acc).
Proof. reflexivity. Qed.

Lemma digitsOf_value (fuel : nat) (n : N) (acc : jsstring) :
  (n < 2 ^ N.of_nat (S fuel))%N ->
  fold_left (fun acc c => 10 * acc + (Z.of_N c - 48))
    (digitsOf (S fuel) n acc) 0
  = fold_left (fun acc c => 10 * acc + (Z.of_N c - 48)) acc (Z.of_N n).
Proof.
  revert n acc. induction fuel as [|fuel IH]; intros n acc B.
  - assert (n / 10 = 0)%N as Q.
    { apply N.div_small. change (2 ^ N.of_nat 1)%N with 2%N in B. lia. }
    simpl. rewrite Q. simpl. f_equal.
    rewrite N.mod_small by (change (2 ^ N.of_nat 1)%N with 2%N in B; lia). lia.
  - rewrite (digitsOf_S (S fuel)). destruct (n / 10 =? 0)%N eqn:Q.
    + apply N.eqb_eq in Q. simpl. f_equal.
      pose proof (N.div_mod n 10 ltac:(done)) as DM. lia.
    + rewrite IH.
      * simpl. f_equal. pose proof (N.div_mod n 10 ltac:(done)) as DM. lia.
      * assert (n / 10 <= n / 2)%N as Le.
        { apply N.div_le_compat_l. lia. }
        assert (n / 2 < 2 ^ N.of_nat (S fuel))%N; [|lia].
        apply N.Div0.div_lt_upper_bound.
        replace (N.of_nat (S (S fuel))) with (N.succ (N.of_nat (S fuel))) in B
          by lia.
        rewrite N.pow_succ_r' in B. lia.
Qed.

Lemma log2_fuel (m : N) : (m < 2 ^ N.of_nat (S (N.to_nat (N.log2 m))))%N.
Proof.
  replace (N.of_nat (S (N.to_nat (N.log2 m)))) with (N.succ (N.log2 m)) by lia.
  destruct (N.eq_dec m 0%N) as [->|NZ]; [done|].
  apply N.log2_spec. lia.
Qed.

Lemma parseInt_toString (n : Z) : 0 <= n -> parseInt (toString n) = n.
Proof.
  intros H. unfold parseInt, toString.
  rewrite digitsOf_value by apply log2_fuel. simpl. lia.
Qed.

Lemma digitsOf_digits (fuel : nat) (n : N) (acc : jsstring) :
  forallb isDigit acc = true -> forallb isDigit (digitsOf fuel n acc) = true.
Proof.
  revert n acc. induction fuel as [|fuel IH]; intros n acc D; [done|].
  rewrite digitsOf_S.
  assert (forallb isDigit ((48 + n mod 10)%N :: acc) = true) as D'.
  { cbn [forallb]. rewrite D, andb_true_r. unfold isDigit.
    pose proof (N.mod_upper_bound n 10 ltac:(done)) as U.
    revert U. generalize (n mod 10)%N. intros d U.
    apply andb_true_iff. split; apply N.leb_le; lia. }
  destruct (n / 10 =? 0)%N; [exact D'|]. by apply IH.
Qed.

Lemma toString_digits (n : Z) : forallb isDigit (toString n) = true.
Proof. by apply digitsOf_digits. Qed.

Lemma digitsOf_head (fuel : nat) (n : N) (acc : jsstring) :
  (0 < n)%N -> (n < 2 ^ N.of_nat (S fuel))%N ->
  exists c rest, digitsOf (S fuel) n acc = c :: rest /\ c <> 48%N.
Proof.
  revert n acc. induction fuel as [|fuel IH]; intros n acc P B.
  - change (2 ^ N.of_nat 1)%N with 2%N in B. assert (n = 1%N) as -> by lia.
    simpl. eexists _, _. split; [reflexivity|done].
  - rewrite (digitsOf_S (S fuel)). destruct (n / 10 =? 0)%N eqn:Q.
    + apply N.eqb_eq in Q. eexists _, _. split; [reflexivity|].
      pose proof (N.div_mod n 10 ltac:(done)) as DM. lia.
    + apply N.eqb_neq in Q. apply IH; [by apply N.neq_0_lt_0|].
      assert (n / 10 <= n / 2)%N as Le.
      { apply N.div_le_compat_l. lia. }
      assert (n / 2 < 2 ^ N.of_nat (S fuel))%N; [|lia].
      apply N.Div0.div_lt_upper_bound.
      replace (N.of_nat (S (S fuel))) with (N.succ (N.of_nat (S fuel))) in B
        by lia.
      rewrite N.pow_succ_r' in B. lia.
Qed.

Lemma toString_head (n : Z) :
  0 < n -> exists c rest, toString n = c :: rest /\ c <> 48%N.
Proof.
  intros P. unfold toString. apply digitsOf_head; [lia|apply log2_fuel].
Qed.

Lemma parseInt_padStart0 (w : nat) (s : jsstring) :
  parseInt (padStart0 w s) = parseInt s.
Proof.
  unfold parseInt, padStart0. rewrite parseInt_from_app. f_equal.
  induction (w - length s)%nat as [|k IH]; simpl; [done|]. exact IH.
Qed.

Lemma padStart0_digits (w : nat) (s : jsstring) :
  forallb isDigit s = true -> forallb isDigit (padStart0 w s) = true.
Proof.
  intros D. unfold padStart0. rewrite forallb_app, D, andb_true_r.
  induction (w - length s)%nat as [|k IH]; simpl; [done|]. exact IH.
Qed.

(** ** Metadata: the version tag *)

Lemma versionIdOf_updateMetaData (unsafeIncrement : jsstring -> jsstring)
    (now : jsstring) (p : PatientResource.t) :
  versionIdOf (updateMetaData unsafeIncrement now p)
  = Some (nextVersionId unsafeIncrement (versionIdOf p)).
Proof.
  unfold versionIdOf, updateMetaData.
  destruct (PatientResource.meta p) as [m|]; reflexivity.
Qed.

Lemma lastUpdatedOf_updateMetaData (unsafeIncrement : jsstring -> jsstring)
    (now : jsstring) (p : PatientResource.t) :
  lastUpdatedOf (updateMetaData unsafeIncrement now p) = Some now.
Proof.
  unfold lastUpdatedOf, updateMetaData.
  destruct (PatientResource.meta p) as [m|]; reflexivity.
Qed.

(** Every mutating call runs [updateMetaData] on the record. *)
Lemma applyPhone_changed_meta (unsafeIncrement : jsstring -> jsstring)
    (now : jsstring) (p p' : PatientResource.t) (phone : jsstring) :
  applyPhone unsafeIncrement now p phone = (p', true) ->
  versionIdOf p' = Some (nextVersionId unsafeIncrement (versionIdOf p)) /\
  lastUpdatedOf p' = Some now.
Proof.
  intros E.
  destruct (applyPhone_paths unsafeIncrement now p phone)
    as [(i & t & _ & _ & E')|[(i & t & _ & _ & E')|(_ & E')]];
    rewrite E' in E; [discriminate E| |]; injection E as <-;
    by rewrite versionIdOf_updateMetaData, lastUpdatedOf_updateMetaData.
Qed.

Lemma nextVersionId_digits (unsafeIncrement : jsstring -> jsstring)
    (suffix : jsstring) :
  allDigits suffix = true -> parseInt suffix < 2 ^ 53 ->
  nextVersionId unsafeIncrement (Some (str "v" ++ suffix))
  = str "v" ++ padStart0 3 (toString (parseInt suffix + 1)).
Proof.
  intros D B. unfold nextVersionId.
  change (startsWith (str "v") (str "v" ++ suffix)) with true. cbv iota.
  change (slice 1 (str "v" ++ suffix)) with suffix.
  rewrite D. unfold incrementToString.
  apply Z.ltb_lt in B. by rewrite B.
Qed.

Lemma nextVersionId_fallback (unsafeIncrement : jsstring -> jsstring)
    (vid : option jsstring) :
  (forall suffix, vid = Some (str "v" ++ suffix) -> allDigits suffix = false) ->
  nextVersionId unsafeIncrement vid
  = orElse vid (str "v000") ++ str "-updated".
Proof.
  intros H. unfold nextVersionId. destruct vid as [v|]; [|done].
  destruct (startsWith (str "v") v) eqn:S; [|done].
  apply startsWith_app in S as [suffix ->].
  change (slice 1 (str "v" ++ suffix)) with suffix.
  by rewrite (H suffix eq_refl).
Qed.

(** C5 (as stated, refuted): the suffix is padded to three digits, not to the
    width it had: [v0010] becomes [v011], not [v0011]. *)
Lemma versionId_width_not_kept :
  ~ (forall unsafeIncrement now patient phone patient' suffix,
        applyPhone unsafeIncrement now patient phone = (patient', true) ->
        versionIdOf patient = Some (str "v" ++ suffix) ->
        allDigits suffix = true ->
        versionIdOf patient'
        = Some (str "v" ++ repadToOriginalWidth suffix)).
Proof.
  intros H.
  pose (p := PatientResource.mk (str "Patient") (str "p1") None None
               (Some (PatientMeta.mk (Some (str "v0010")) None [])) []).
  specialize (H (fun _ => []) (str "T") p (str "+6281234567890") _ (str "0010")
                eq_refl eq_refl eq_refl).
  vm_compute in H. discriminate H.
Qed.

(** C5 (amended): on every mutating [applyPhone] call the version tag is
    replaced as follows.  If the tag is [v] followed by digits (of a number
    below [2^53]), the new tag is [v] followed by the number plus one,
    written in decimal and padded with zeros to at least three digits
    ([v010] gives [v011], [v0010] gives [v011], [v999] gives [v1000]).
    Otherwise ["-updated"] is appended to the tag, or to ["v000"] when the
    tag is absent or empty. *)
Theorem applyPhone_versionId (unsafeIncrement : jsstring -> jsstring)
    (now : jsstring) (patient patient' : PatientResource.t) (phone : jsstring) :
  applyPhone unsafeIncrement now patient phone = (patient', true) ->
  (forall suffix,
      versionIdOf patient = Some (str "v" ++ suffix) ->
      allDigits suffix = true ->
      parseInt suffix < 2 ^ 53 ->
      exists suffix',
        versionIdOf patient' = Some (str "v" ++ suffix') /\
        suffix' = padStart0 3 (toString (parseInt suffix + 1)) /\
        forallb isDigit suffix' = true /\
        parseInt suffix' = parseInt suffix + 1 /\
        (3 <= length suffix')%nat /\
        ((3 < length suffix')%nat -> head suffix' <> Some 48%N))
  /\
  ((forall suffix,
       versionIdOf patient = Some (str "v" ++ suffix) ->
       allDigits suffix = false) ->
   versionIdOf patient'
   = Some (orElse (versionIdOf patient) (str "v000") ++ str "-updated")).
Proof.
  intros E. apply applyPhone_changed_meta in E as [E _]. split.
  - intros suffix V D B. rewrite V in E.
    rewrite nextVersionId_digits in E by done.
    eexists. split; [exact E|]. split; [reflexivity|].
    assert (0 <= parseInt suffix) as NN.
    { apply parseInt_nonneg; [|done]. by apply allDigits_forallb in D as []. }
    split; [|split; [|split]].
    + apply padStart0_digits, toString_digits.
    + rewrite parseInt_padStart0. apply parseInt_toString. lia.
    + unfold padStart0. rewrite length_app, repeat_length. lia.
    + unfold padStart0. rewrite length_app, repeat_length. intros L.
      replace (3 - length (toString (parseInt suffix + 1)))%nat with 0%nat
        by lia.
      destruct (toString_head (parseInt suffix + 1)) as (c & rest & -> & Hc);
        [lia|].
      simpl. congruence.
  - intros H. rewrite E. f_equal. by apply nextVersionId_fallback.
Qed.

Lemma applyPhone_versionId_witness :
  exists suffix',
    versionIdOf
      (applyPhone Sample.noIncrement (Sample.fixedClock 0)
         (Sample.patient (str "patient-002") [Sample.nikB] (str "v010"))
         (str "+6281234567890")).1
    = Some (str "v" ++ suffix') /\
    suffix' = str "011".
Proof.
  destruct (proj1 (applyPhone_versionId Sample.noIncrement (Sample.fixedClock 0)
                     (Sample.patient (str "patient-002") [Sample.nikB] (str "v010"))
                     (applyPhone Sample.noIncrement (Sample.fixedClock 0)
                        (Sample.patient (str "patient-002") [Sample.nikB] (str "v010"))
                        (str "+6281234567890")).1
                     (str "+6281234567890") eq_refl) (str "010"))
    as (s' & V & S & _); [reflexivity|reflexivity|reflexivity|].
  exists s'. split; [exact V|exact S].
Defined.

(** ** The ordering step *)

Section Sorting.

Context {A : Type} (key : A -> Z).

Lemma insertBy_Permutation (x : A) (l : list A) :
  insertBy (fun a b => key a - key b) x l ≡ₚ x :: l.
Proof.
  induction l as [|y l IH]; simpl; [done|].
  destruct (key x - key y <=? 0); [done|].
  rewrite IH. apply Permutation_swap.
Qed.

Lemma sortBy_Permutation (l : list A) :
  sortBy (fun a b => key a - key b) l ≡ₚ l.
Proof.
  induction l as [|x l IH]; simpl; [done|].
  rewrite insertBy_Permutation. by rewrite IH.
Qed.

Lemma insertBy_sorted (x : A) (l : list A) :
  StronglySorted (fun a b => key a <= key b) l ->
  StronglySorted (fun a b => key a <= key b)
    (insertBy (fun a b => key a - key b) x l).
Proof.
  induction 1 as [|y l S IH F]; simpl.
  - repeat constructor.
  - destruct (key x - key y <=? 0) eqn:C.
    + apply Z.leb_le in C. constructor; [by constructor|].
      constructor; [lia|]. eapply Forall_impl; [exact F|].
      simpl. intros z Hz. lia.
    + apply Z.leb_gt in C. constructor; [done|].
      rewrite insertBy_Permutation. constructor; [lia|done].
Qed.

Lemma sortBy_sorted (l : list A) :
  StronglySorted (fun a b => key a <= key b)
    (sortBy (fun a b => key a - key b) l).
Proof.
  induction l as [|x l IH]; simpl; [constructor|]. by apply insertBy_sorted.
Qed.

(** Stability: elements with the same key keep their relative order (stated
    for every property of the key). *)
Lemma insertBy_stable (k : Z) (x : A) (l : list A) :
  Forall (fun y => k = key y -> key x <= key y) l ->
  List.filter (fun a => key a =? k) (insertBy (fun a b => key a - key b) x l)
  = List.filter (fun a => key a =? k) (x :: l).
Proof.
  induction 1 as [|y l Hy F IH]; [done|].
  cbn [insertBy]. destruct (key x - key y <=? 0) eqn:C; [done|].
  apply Z.leb_gt in C. cbn [List.filter] in *. rewrite IH.
  destruct (key y =? k) eqn:Ky; [|done].
  apply Z.eqb_eq in Ky. destruct (key x =? k) eqn:Kx; [|done].
  apply Z.eqb_eq in Kx. lia.
Qed.

Lemma sortBy_stable (k : Z) (l : list A) :
  List.filter (fun a => key a =? k) (sortBy (fun a b => key a - key b) l)
  = List.filter (fun a => key a =? k) l.
Proof.
  induction l as [|x l IH]; [done|]. cbn [sortBy fold_right].
  fold (sortBy (fun a b => key a - key b) l).
  destruct (decide (key x = k)) as [E|NE].
  - rewrite insertBy_stable.
    + cbn [List.filter]. by rewrite IH.
    + pose proof (sortBy_sorted l) as S.
      apply Forall_forall. intros y _ ->. lia.
  - assert (forall m, List.filter (fun a => key a =? k)
                        (insertBy (fun a b => key a - key b) x m)
                      = List.filter (fun a => key a =? k) m) as Skip.
    { induction m as [|y m IHm]; cbn [insertBy List.filter].
      - apply Z.eqb_neq in NE. by rewrite NE.
      - destruct (key x - key y <=? 0); cbn [List.filter].
        + apply Z.eqb_neq in NE. by rewrite NE.
        + by rewrite IHm. }
    rewrite Skip, IH. cbn [List.filter]. apply Z.eqb_neq in NE. by rewrite NE.
Qed.

Lemma sorted_lookup_le (l : list A) (i j : nat) (x y : A) :
  StronglySorted (fun a b => key a <= key b) l ->
  l !! i = Some x -> l !! j = Some y -> (i < j)%nat -> key x <= key y.
Proof.
  intros S. revert i j. induction S as [|z l S IH F]; intros i j Hi Hj Lt.
  - done.
  - destruct j as [|j]; [lia|]. destruct i as [|i]; simpl in *.
    + injection Hi as ->. rewrite Forall_forall in F. apply F.
      eapply list_elem_of_lookup_2. exact Hj.
    + apply (IH i j); [done..|lia].
Qed.

End Sorting.

Lemma sortRows_Permutation (rows : list SheetRow) : sortRows rows ≡ₚ rows.
Proof. apply (sortBy_Permutation rowKey). Qed.

Lemma sortRows_sorted (rows : list SheetRow) :
  StronglySorted (fun a b => rowKey a <= rowKey b) (sortRows rows).
Proof. apply (sortBy_sorted rowKey). Qed.

Lemma sortRows_stable (k : Z) (rows : list SheetRow) :
  List.filter (fun r => rowKey r =? k) (sortRows rows)
  = List.filter (fun r => rowKey r =? k) rows.
Proof. apply (sortBy_stable rowKey). Qed.

(** ** The update loop *)

Section Run.

Variable unsafeIncrement : jsstring -> jsstring.
Variable clock : nat -> jsstring.
Context {normalizer : IPhoneNormalizer}.

(** One row: the total goes up by one and so does exactly one of the four
    outcome counters. *)
Lemma processRow_stats (s : Service) (row : SheetRow) :
  let a := stats (reporter s) in
  let b := stats (reporter (processRow unsafeIncrement clock s row)) in
  totalRows b = totalRows a + 1 /\
  ((validUpdated b = validUpdated a + 1 /\ validUnchanged b = validUnchanged a /\
    invalidFormat b = invalidFormat a /\ missingPatient b = missingPatient a)
   \/
   (validUpdated b = validUpdated a /\ validUnchanged b = validUnchanged a + 1 /\
    invalidFormat b = invalidFormat a /\ missingPatient b = missingPatient a)
   \/
   (validUpdated b = validUpdated a /\ validUnchanged b = validUnchanged a /\
    invalidFormat b = invalidFormat a + 1 /\ missingPatient b = missingPatient a)
   \/
   (validUpdated b = validUpdated a /\ validUnchanged b = validUnchanged a /\
    invalidFormat b = invalidFormat a /\ missingPatient b = missingPatient a + 1)).
Proof.
  unfold processRow.
  destruct (accepted _) as [phone|].
  - destruct (findByNik _ _) as [patient|].
    + destruct (applyPhoneAt _ _ _ _ _) as [repo' [|]]; simpl; tauto.
    + simpl. tauto.
  - unfold recordInvalid. destruct (eqb _ _); simpl; tauto.
Qed.

Lemma processRow_outcomes (s : Service) (row : SheetRow) :
  totalRows (stats (reporter (processRow unsafeIncrement clock s row)))
  = totalRows (stats (reporter s)) + 1 /\
  outcomes (stats (reporter (processRow unsafeIncrement clock s row)))
  = outcomes (stats (reporter s)) + 1.
Proof.
  destruct (processRow_stats s row) as [T O]. split; [exact T|].
  unfold outcomes. lia.
Qed.

Lemma fold_processRow_stats (rows : list SheetRow) (s : Service) :
  totalRows (stats (reporter (fold_left (processRow unsafeIncrement clock) rows s)))
  = totalRows (stats (reporter s)) + Z.of_nat (length rows) /\
  outcomes (stats (reporter (fold_left (processRow unsafeIncrement clock) rows s)))
  = outcomes (stats (reporter s)) + Z.of_nat (length rows).
Proof.
  revert s. induction rows as [|row rows IH]; intros s.
  - simpl. lia.
  - cbn [fold_left length]. destruct (IH (processRow unsafeIncrement clock s row)) as [T O].
    destruct (processRow_outcomes s row) as [T1 O1]. lia.
Qed.

(** The loop never touches the index, nor the number of patients. *)
Lemma applyPhoneAt_shape (now : jsstring) (r : InMemoryPatientRepository)
    (ref : nat) (phone : jsstring) :
  byNik (applyPhoneAt unsafeIncrement now r ref phone).1 = byNik r /\
  length (patients (applyPhoneAt unsafeIncrement now r ref phone).1)
  = length (patients r).
Proof.
  unfold applyPhoneAt. destruct (patients r !! ref) as [p|]; [|done].
  destruct (applyPhone _ _ _ _) as [p' c]. simpl. by rewrite length_insert.
Qed.

Lemma processRow_shape (s : Service) (row : SheetRow) :
  byNik (repo (processRow unsafeIncrement clock s row)) = byNik (repo s) /\
  length (patients (repo (processRow unsafeIncrement clock s row)))
  = length (patients (repo s)).
Proof.
  unfold processRow.
  destruct (accepted _) as [phone|]; [|done].
  destruct (findByNik _ _) as [patient|]; [|done].
  pose proof (applyPhoneAt_shape (clock (ticks s)) (repo s) patient phone) as H.
  destruct (applyPhoneAt _ _ _ _ _) as [repo' [|]]; exact H.
Qed.



Lemma fold_processRow_shape (rows : list SheetRow) (s : Service) :
  byNik (repo (fold_left (processRow unsafeIncrement clock) rows s))
  = byNik (repo s) /\
  length (patients (repo (fold_left (processRow unsafeIncrement clock) rows s)))
  = length (patients (repo s)).
Proof.
  revert s. induction rows as [|row rows IH]; intros s; [done|].
  cbn [fold_left]. destruct (IH (processRow unsafeIncrement clock s row)) as [B L].
  destruct (processRow_shape s row) as [B1 L1]. split; congruence.
Qed.


End Run.




(** A valid result of [normalise] passes the guard of the loop. *)
Lemma accepted_normalise (format : PhoneFormat) (rawInput : jsstring) :
  valid (normalise format rawInput) = true ->
  accepted (normalise format rawInput) = canonical (normalise format rawInput) /\
  is_Some (canonical (normalise format rawInput)).
Proof.
  intros V. unfold accepted. rewrite V.
  destruct (normalise_cases format rawInput) as [[V' _]|[rest H]];
    [congruence|].
  destruct H as (_ & _ & _ & _ & C). rewrite C.
  split; [|eauto]. by destruct format.
Qed.

(** C1: from a fresh reporter, any run over any finite sequence of rows
    ends with [totalRows] equal to the sum of the four outcome counters (and
    to the number of rows); a reporter that is carried over gains the same
    amount on both sides.  Each row adds one to the total and one to
    exactly one outcome counter. *)
Theorem run_sum_invariant (unsafeIncrement : jsstring -> jsstring)
    (clock : nat -> jsstring) (normalizer : IPhoneNormalizer)
    (r : InMemoryPatientRepository) (t : nat) (rows : list SheetRow) :
  let final :=
    buildStats (reporter (run unsafeIncrement clock
                            (mkService r newReporter t) rows).1) in
  (totalRows final
   = validUpdated final + validUnchanged final + invalidFormat final
     + missingPatient final) /\
  totalRows final = Z.of_nat (length rows) /\
  report (run unsafeIncrement clock (mkService r newReporter t) rows).2 = final /\
  (forall s,
      let before := stats (reporter s) in
      let after := stats (reporter (run unsafeIncrement clock s rows).1) in
      totalRows after - totalRows before
      = outcomes after - outcomes before) /\
  (forall s row,
      let a := stats (reporter s) in
      let b := stats (reporter (processRow unsafeIncrement clock s row)) in
      totalRows b = totalRows a + 1 /\
      ((validUpdated b = validUpdated a + 1 /\
        validUnchanged b = validUnchanged a /\
        invalidFormat b = invalidFormat a /\
        missingPatient b = missingPatient a)
       \/
       (validUpdated b = validUpdated a /\
        validUnchanged b = validUnchanged a + 1 /\
        invalidFormat b = invalidFormat a /\
        missingPatient b = missingPatient a)
       \/
       (validUpdated b = validUpdated a /\
        validUnchanged b = validUnchanged a /\
        invalidFormat b = invalidFormat a + 1 /\
        missingPatient b = missingPatient a)
       \/
       (validUpdated b = validUpdated a /\
        validUnchanged b = validUnchanged a /\
        invalidFormat b = invalidFormat a /\
        missingPatient b = missingPatient a + 1))).
Proof.
  intros final. subst final. unfold run, buildStats. simpl.
  pose proof (fold_processRow_stats unsafeIncrement clock rows
                (mkService r newReporter t)) as [T O].
  unfold outcomes in *. simpl in *.
  split; [lia|]. split; [lia|]. split; [done|]. split.
  - intros s.
    pose proof (fold_processRow_stats unsafeIncrement clock rows s) as [T' O'].
    unfold outcomes in *. lia.
  - intros s row. apply processRow_stats.
Qed.

(** ** Ordering and the loop together *)

Lemma parseDate_unparsable (d : jsstring) : matchDate d = None -> parseDate d = 0.
Proof. intros M. unfold parseDate. rewrite M. by destruct (falsy d). Qed.

(** C6 (as stated, refuted): an unparsable date counts as the epoch, so a
    row dated before 1970 is ordered in front of it. *)
Lemma unparsable_date_not_always_first :
  ~ (forall rows bad other i j,
        matchDate (lastUpdatedDate bad) = None ->
        is_Some (matchDate (lastUpdatedDate other)) ->
        sortRows rows !! i = Some bad ->
        sortRows rows !! j = Some other ->
        (i < j)%nat).
Proof.
  intros H.
  pose (bad := mkSheetRow (str "n/a") (str "3171044203920001") (str "NAME")
                 (str "081234567890")).
  pose (old := mkSheetRow (str "01-01-1960") (str "3171044203920001")
                 (str "NAME") (str "081234567891")).
  specialize (H [bad; old] bad old 1%nat 0%nat).
  assert (1 < 0)%nat; [|lia].
  apply H; [reflexivity|by eexists|reflexivity|reflexivity].
Qed.

(** C6 (amended): a row whose date does not parse is ordered as the epoch
    (key 0): it comes before every row whose date parses to a time after
    1 January 1970.  It is kept by the ordering step and processed by the
    loop, so that including it raises [totalRows] by exactly one. *)
Theorem unparsable_date_is_epoch (unsafeIncrement : jsstring -> jsstring)
    (clock : nat -> jsstring) (normalizer : IPhoneNormalizer)
    (r : InMemoryPatientRepository) (t : nat)
    (rows front back : list SheetRow) (bad : SheetRow) :
  matchDate (lastUpdatedDate bad) = None ->
  rowKey bad = 0 /\
  (forall i j other,
      sortRows rows !! i = Some bad ->
      sortRows rows !! j = Some other ->
      0 < rowKey other ->
      (i < j)%nat) /\
  (bad ∈ rows -> bad ∈ sortRows rows) /\
  totalRows (stats (reporter
     (run unsafeIncrement clock (mkService r newReporter t)
        (sortRows (front ++ bad :: back))).1))
  = totalRows (stats (reporter
       (run unsafeIncrement clock (mkService r newReporter t)
          (sortRows (front ++ back))).1)) + 1.
Proof.
  intros M.
  assert (rowKey bad = 0) as K by by apply parseDate_unparsable.
  split; [exact K|]. split; [|split].
  - intros i j other Hi Hj Pos.
    destruct (decide (i < j)%nat) as [|Ge]; [done|exfalso].
    destruct (decide (i = j)) as [->|Ne].
    + rewrite Hi in Hj. injection Hj as <-. lia.
    + pose proof (sorted_lookup_le rowKey _ j i other bad
                    (sortRows_sorted rows) Hj Hi ltac:(lia)). lia.
  - intros In. by rewrite sortRows_Permutation.
  - unfold run. simpl.
    rewrite !(proj1 (fold_processRow_stats unsafeIncrement clock _ _)).
    rewrite (Permutation_length (sortRows_Permutation (front ++ bad :: back))).
    rewrite (Permutation_length (sortRows_Permutation (front ++ back))).
    rewrite !length_app. simpl. lia.
Qed.

Lemma unparsable_date_is_epoch_witness :
  rowKey (mkSheetRow (str "2025-09-23") (str "3171044203920001") (str "NAME")
            (str "081234567890")) = 0.
Proof.
  apply (unparsable_date_is_epoch (fun _ => []) (fun _ => []) (PhoneNormalizer e164)
           (newRepository []) 0 [] [] []
           (mkSheetRow (str "2025-09-23") (str "3171044203920001") (str "NAME")
              (str "081234567890"))).
  reflexivity.
Defined.

Section LatestWins.

Variable unsafeIncrement : jsstring -> jsstring.
Variable clock : nat -> jsstring.
Variable format : PhoneFormat.
Variable ps : list PatientResource.t.


End LatestWins.

(** ** The index of the repository *)

Lemma indexIdentifiers_spec (ref : nat) (p : PatientResource.t)
    (m : gmap (list N) nat) (k : jsstring) :
  indexIdentifiers ref p m !! k = if hasNik k p then Some ref else m !! k.
Proof.
  unfold indexIdentifiers, hasNik.
  generalize (default [] (PatientResource.identifier p)). intros ids.
  revert m. induction ids as [|ident ids IH]; intros m; simpl; [done|].
  rewrite IH. destruct (existsb _ ids); [by rewrite orb_true_r|].
  rewrite orb_false_r.
  destruct (eqb (PatientIdentifier.system ident) NIK_SYSTEM); simpl; [|done].
  destruct (eqb (PatientIdentifier.value ident) k) eqn:E.
  - apply eqb_eq in E. subst k. apply lookup_insert_eq.
  - apply eqb_neq in E. by apply lookup_insert_ne.
Qed.

Lemma indexPatients_absent (ps : list PatientResource.t) (ref : nat)
    (m : gmap (list N) nat) (k : jsstring) :
  (forall q, q ∈ ps -> hasNik k q = false) ->
  indexPatients ref ps m !! k = m !! k.
Proof.
  revert ref m. induction ps as [|p ps IH]; intros ref m H; simpl; [done|].
  rewrite IH.
  - rewrite indexIdentifiers_spec, (H p); [done|apply list_elem_of_here].
  - intros q Hq. apply H. by apply list_elem_of_further.
Qed.

Lemma indexPatients_last (l1 l2 : list PatientResource.t)
    (p : PatientResource.t) (ref : nat) (m : gmap (list N) nat) (k : jsstring) :
  hasNik k p = true ->
  (forall q, q ∈ l2 -> hasNik k q = false) ->
  indexPatients ref (l1 ++ p :: l2) m !! k = Some (ref + length l1)%nat.
Proof.
  intros Hp H2. revert ref m.
  induction l1 as [|a l1 IH]; intros ref m; simpl.
  - rewrite indexPatients_absent by done.
    rewrite indexIdentifiers_spec, Hp. f_equal. lia.
  - rewrite IH. f_equal. lia.
Qed.

Lemma last_with {A : Type} (f : A -> bool) (l : list A) :
  existsb f l = true ->
  exists l1 x l2, l = l1 ++ x :: l2 /\ f x = true /\
                  forall y, y ∈ l2 -> f y = false.
Proof.
  induction l as [|a l IH]; simpl; [discriminate|]. intros H.
  destruct (existsb f l) eqn:E.
  - destruct (IH eq_refl) as (l1 & x & l2 & -> & Fx & F2).
    exists (a :: l1), x, l2. done.
  - rewrite orb_false_r in H. exists [], a, l. split_and!; [done..|].
    intros y Hy. destruct (f y) eqn:Fy; [|done].
    assert (existsb f l = true); [|congruence].
    apply existsb_exists. exists y. split; [|done]. by apply list_elem_of_In.
Qed.





(** The bound on the number of NIK identifiers cannot be dropped from the
    theorem below: a patient indexed under two identifiers is reached by
    the rows of both, and a later row of the second identifier then writes
    the final value. *)
Remark latest_row_of_identifier_overwritten :
  ~ (forall unsafeIncrement clock format ps rows shuffled k ref latest,
        findByNik (newRepository ps) k = Some ref ->
        (forall r, r ∈ rows -> nik r = k ->
                   is_Some (matchDate (lastUpdatedDate r)) /\
                   valid (normalise format (rawPhone r)) = true) ->
        NoDup (rowKey <$> filter (fun r => nik r = k) rows) ->
        latest ∈ rows -> nik latest = k ->
        (forall r, r ∈ rows -> nik r = k -> rowKey r <= rowKey latest) ->
        rows ≡ₚ shuffled ->
        patients (repo (run unsafeIncrement clock
                          (normalizer := PhoneNormalizer format)
                          (newService ps) (sortRows shuffled)).1) !! ref
          ≫= mobilePhoneValue
        = canonical (normalise format (rawPhone latest))).
Proof.
  intros H.
  specialize (H Sample.noIncrement Sample.fixedClock e164 Sample.twoNiks
                Sample.rowsAB Sample.rowsAB Sample.nikA 0%nat
                (Sample.row (str "02-01-2025") Sample.nikA (str "0822222222222"))).
  assert (forall r : SheetRow, r ∈ Sample.rowsAB ->
            r = Sample.row (str "01-01-2025") Sample.nikA (str "0811111111111")
            \/ r = Sample.row (str "02-01-2025") Sample.nikA (str "0822222222222")
            \/ r = Sample.row (str "03-01-2025") Sample.nikB (str "0833333333333"))
    as Cases.
  { intros r Hr. unfold Sample.rowsAB in Hr.
    repeat (apply elem_of_cons in Hr as [Hr|Hr]; [auto|]).
    by apply elem_of_nil in Hr. }
  assert (Some (str "+62833333333333") = Some (str "+62822222222222")) as E;
    [|discriminate E].
  etransitivity; [|apply H].
  - by vm_compute.
  - by vm_compute.
  - intros r Hr Kr. destruct (Cases r Hr) as [-> | [-> | ->]].
    + split; [by eexists|reflexivity].
    + split; [by eexists|reflexivity].
    + discriminate Kr.
  - apply (bool_decide_unpack _). by vm_compute.
  - apply elem_of_cons. right. apply elem_of_cons. by left.
  - reflexivity.
  - intros r Hr Kr. destruct (Cases r Hr) as [-> | [-> | ->]].
    + by vm_compute.
    + by vm_compute.
    + discriminate Kr.
  - reflexivity.
Qed.



(** ** The scenario of the repository's own end-to-end test *)

Example end_to_end_test :
  let csv :=
    str "last_updated_date,nik_identifier,name,phone_number" ++ [10%N]
    ++ str "23-09-2025,3171044203920001,NAME,+6281234567890" ++ [10%N]
    ++ str "23-09-2025,3578106207900002,NAME,081234567890" ++ [10%N]
    ++ str "23-09-2025,3578106207900002,NAME,62abc123" ++ [10%N]
    ++ str "23-09-2025,0000000000000000,NAME,081234567890" ++ [10%N]
    ++ str "22-09-2025,3171044203920001,NAME,081234567890" in
  let ps := [Sample.patient (str "patient-001") [Sample.nikA] (str "v001");
             Sample.patient (str "patient-002") [Sample.nikB] (str "v010")] in
  let result := run Sample.noIncrement Sample.fixedClock
                  (normalizer := PhoneNormalizer e164)
                  (newService ps) (loadRows csv) in
  buildStats (reporter result.1) = mkStats 5 2 1 1 1 /\
  (patients (repo result.1) !! 1%nat) ≫= mobilePhoneValue
  = Some (str "+6281234567890") /\
  (patients (repo result.1) !! 1%nat) ≫= versionIdOf = Some (str "v011").
Proof. by vm_compute. Qed.

Example normalise_test_vectors :
  canonical (normalise e164 (str "6285678901234")) = Some (str "+6285678901234") /\
  canonical (normalise e164 (str "081234567890")) = Some (str "+6281234567890") /\
  canonical (normalise e164 (str "0834-5678-9012")) = Some (str "+6283456789012") /\
  canonical (normalise e164 (str "85678901234")) = Some (str "+6285678901234") /\
  canonical (normalise local0 (str "6285678901234")) = Some (str "085678901234") /\
  canonical (normalise local0 (str "85678901234")) = Some (str "085678901234").
Proof. repeat split; reflexivity. Qed.

Example parseDate_vectors :
  parseDate (str "23-09-2025") = 1758585600000 /\
  parseDate (str "23/09/2025") = 1758585600000 /\
  parseDate (str "01-01-1970") = 0 /\
  parseDate (str "2025-09-23") = 0 /\
  parseDate (str "") = 0.
Proof. repeat split; reflexivity. Qed.

(** * Further properties of the normaliser *)

(** ** Trimming *)

Lemma trimStart_nil_iff (s : jsstring) :
  trimStart s = [] <-> forallb isWhiteSpace s = true.
Proof.
  induction s as [|c s IH]; simpl; [done|].
  destruct (isWhiteSpace c); simpl; [exact IH|]. split; discriminate.
Qed.

Lemma trimStart_head (s r : jsstring) (c : char) :
  trimStart s = c :: r -> isWhiteSpace c = false.
Proof.
  induction s as [|a s IH]; simpl; [discriminate|].
  destruct (isWhiteSpace a) eqn:W; [exact IH|]. by intros [= <- _].
Qed.

Lemma trimStart_clean (s : jsstring) :
  forallb (fun c => negb (isWhiteSpace c)) s = true -> trimStart s = s.
Proof.
  destruct s as [|c s]; simpl; [done|].
  destruct (isWhiteSpace c); [discriminate|done].
Qed.

Lemma forallb_rev {A : Type} (f : A -> bool) (l : list A) :
  forallb f (rev l) = forallb f l.
Proof.
  induction l as [|x l IH]; simpl; [done|].
  rewrite forallb_app, IH. simpl. rewrite andb_true_r. apply andb_comm.
Qed.

Lemma trim_clean (s : jsstring) :
  forallb (fun c => negb (isWhiteSpace c)) s = true -> trim s = s.
Proof.
  intros H. unfold trim. rewrite (trimStart_clean s H).
  rewrite trimStart_clean; [apply rev_involutive|].
  by rewrite forallb_rev.
Qed.

Lemma trim_nil_iff (s : jsstring) :
  trim s = [] <-> forallb isWhiteSpace s = true.
Proof.
  unfold trim. rewrite <- trimStart_nil_iff. split.
  - intros H. apply (f_equal (@rev N)) in H. rewrite rev_involutive in H.
    simpl in H. apply trimStart_nil_iff in H. rewrite forallb_rev in H.
    destruct (trimStart s) as [|c r] eqn:T; [done|].
    apply trimStart_head in T. simpl in H. by rewrite T in H.
  - by intros ->.
Qed.

Lemma filter_trimStart (keep : char -> bool) (s : jsstring) :
  (forall c, keep c = true -> isWhiteSpace c = false) ->
  List.filter keep (trimStart s) = List.filter keep s.
Proof.
  intros K. induction s as [|c s IH]; simpl; [done|].
  destruct (isWhiteSpace c) eqn:W; [|done].
  rewrite IH. destruct (keep c) eqn:Kc; [|done].
  apply K in Kc. congruence.
Qed.

Lemma filter_trim (keep : char -> bool) (s : jsstring) :
  (forall c, keep c = true -> isWhiteSpace c = false) ->
  List.filter keep (trim s) = List.filter keep s.
Proof.
  intros K. unfold trim.
  rewrite List.filter_rev, filter_trimStart, List.filter_rev by done.
  rewrite rev_involutive. by apply filter_trimStart.
Qed.

(** No character that survives cleaning is white space. *)
Lemma kept_not_whitespace (c : char) :
  nonDigit c = false -> isWhiteSpace c = false.
Proof.
  unfold nonDigit, isDigit. intros H. apply negb_false_iff in H.
  assert (c = 43 \/ 48 <= c <= 57)%N as B.
  { apply orb_true_iff in H as [H|H].
    - left. by apply N.eqb_eq.
    - right. apply andb_true_iff in H as [Lo Hi].
      apply N.leb_le in Lo, Hi. lia. }
  unfold isWhiteSpace.
  repeat match goal with
         | |- context [(?a <=? ?b)%N] =>
             first [ replace (a <=? b)%N with true
                       by (symmetry; apply N.leb_le; lia)
                   | replace (a <=? b)%N with false
                       by (symmetry; apply N.leb_gt; lia) ]
         | |- context [(?a =? ?b)%N] =>
             replace (a =? b)%N with false by (symmetry; apply N.eqb_neq; lia)
         end.
  reflexivity.
Qed.

Lemma replace_nonDigit_trim (s : jsstring) :
  replace_nonDigit (trim s) = replace_nonDigit s.
Proof.
  apply filter_trim. intros c K. apply kept_not_whitespace.
  by apply negb_true_iff.
Qed.

Lemma replace_nonDigit_kept (s : jsstring) :
  forallb (fun c => negb (nonDigit c)) s = true -> replace_nonDigit s = s.
Proof.
  unfold replace_nonDigit. induction s as [|c s IH]; simpl; [done|].
  intros [Hc Hs]%andb_true_iff. rewrite Hc. f_equal. by apply IH.
Qed.

Lemma digits_kept (s : jsstring) :
  forallb isDigit s = true -> forallb (fun c => negb (nonDigit c)) s = true.
Proof.
  induction s as [|c s IH]; simpl; [done|].
  intros [Hc Hs]%andb_true_iff. rewrite IH by done.
  unfold nonDigit. rewrite Hc, orb_true_r. done.
Qed.

Lemma kept_no_whitespace (s : jsstring) :
  forallb (fun c => negb (nonDigit c)) s = true ->
  forallb (fun c => negb (isWhiteSpace c)) s = true.
Proof.
  induction s as [|c s IH]; simpl; [done|].
  intros [Hc Hs]%andb_true_iff. rewrite IH by done.
  apply negb_true_iff in Hc. by rewrite (kept_not_whitespace c Hc).
Qed.

(** ** The two output formats side by side *)

(** The early results of the cascade do not depend on [raw] beyond carrying
    it along. *)
Lemma classify_raw (raw1 raw2 cleaned : jsstring) :
  match classify raw1 cleaned, classify raw2 cleaned with
  | inr a, inr b => a = b
  | inl a, inl b =>
      raw a = raw1 /\ raw b = raw2 /\ valid a = false /\ valid b = false /\
      canonical a = None /\ canonical b = None /\ reason a = reason b /\
      (reason a = Some (str "non_digit") \/ reason a = Some (str "length"))
  | _, _ => False
  end.
Proof.
  unfold classify.
  repeat match goal with
         | |- context [if ?b then _ else _] => destruct b
         end; simpl; auto 10.
Qed.

Lemma normalise_formats (rawInput : jsstring) :
  (valid (normalise e164 rawInput) = false /\
   canonical (normalise e164 rawInput) = None /\
   raw (normalise e164 rawInput) = trim rawInput /\
   is_Some (reason (normalise e164 rawInput)) /\
   normalise local0 rawInput = normalise e164 rawInput)
  \/
  (exists rest,
      forallb isDigit rest = true /\
      10 <= Z.of_nat (length rest) + 2 <= 15 /\
      normalise e164 rawInput
      = build (trim rawInput) (Some (str "+62" ++ rest)) true None /\
      normalise local0 rawInput
      = build (trim rawInput) (Some (str "0" ++ rest)) true None).
Proof.
  unfold normalise.
  destruct (falsy (trim rawInput)); [left; simpl; eauto 10|].
  pose proof (classify_raw (trim rawInput) (trim rawInput)
                (clean (trim rawInput))) as R.
  destruct (classify _ _) as [early|c] eqn:C.
  - left. destruct R as (R1 & _ & V & _ & Cn & _ & _ & [Re|Re]);
      rewrite V, Cn, R1, Re; eauto 10.
  - clear R. apply classify_inr in C as [rest [-> D]].
    change (startsWith (str "+62") (str "+62" ++ rest)) with true. simpl negb.
    cbv iota.
    destruct (_ || _) eqn:L; [left; simpl; eauto 10|].
    right. exists rest. apply orb_false_iff in L as [L1 L2].
    unfold MIN_LEN, MAX_LEN in *.
    rewrite length_app in L1, L2. change (length (str "+62")) with 3%nat in *.
    apply Z.ltb_ge in L1. rewrite Z.gtb_ltb in L2. apply Z.ltb_ge in L2.
    split; [done|]. split; [lia|]. done.
Qed.

(** What decides validity: the input is not blank, the cascade assigns a
    value, and that value has between 10 and 15 digits. *)
Lemma normalise_valid_iff (format : PhoneFormat) (rawInput : jsstring) :
  valid (normalise format rawInput) = true <->
  trim rawInput <> [] /\
  exists rest,
    classify (trim rawInput) (clean (trim rawInput)) = inr (str "+62" ++ rest) /\
    10 <= Z.of_nat (length rest) + 2 <= 15.
Proof.
  unfold normalise.
  destruct (trim rawInput) as [|c0 r0] eqn:T.
  { simpl. split; [discriminate|]. by intros [? _]. }
  cbn [falsy]. rewrite <- T.
  destruct (classify _ _) as [early|c] eqn:C.
  - split.
    + pose proof (classify_raw (trim rawInput) (trim rawInput)
                    (clean (trim rawInput))) as R.
      rewrite C in R. destruct R as (_ & _ & V & _). congruence.
    + intros [_ (rest & E & _)]. discriminate E.
  - pose proof C as [rest [-> D]]%classify_inr.
    change (startsWith (str "+62") (str "+62" ++ rest)) with true. simpl negb.
    cbv iota. unfold MIN_LEN, MAX_LEN.
    rewrite length_app. change (length (str "+62")) with 3%nat.
    destruct (_ || _) eqn:L; simpl.
    + split; [discriminate|]. intros [_ (rest' & E & B)].
      injection E as E. subst rest'.
      apply orb_true_iff in L as [L|L].
      * apply Z.ltb_lt in L. lia.
      * rewrite Z.gtb_ltb in L. apply Z.ltb_lt in L. lia.
    + split; [|done]. intros _. split; [by rewrite T|]. exists rest.
      split; [done|]. apply orb_false_iff in L as [L1 L2].
      apply Z.ltb_ge in L1. rewrite Z.gtb_ltb in L2. apply Z.ltb_ge in L2. lia.
Qed.

(** X1: the fields of a result go together.  [raw] is the trimmed input; a
    result is valid exactly when it carries a canonical value and exactly
    when it carries no reason; and an invalid result has one of the reasons
    [empty], [non_digit] and [length]. *)
Theorem normalise_result_consistent (format : PhoneFormat) (rawInput : jsstring) :
  raw (normalise format rawInput) = trim rawInput /\
  (valid (normalise format rawInput) = true <->
   is_Some (canonical (normalise format rawInput))) /\
  (valid (normalise format rawInput) = true <->
   reason (normalise format rawInput) = None) /\
  (valid (normalise format rawInput) = false <->
   reason (normalise format rawInput) = Some (str "empty") \/
   reason (normalise format rawInput) = Some (str "non_digit") \/
   reason (normalise format rawInput) = Some (str "length")).
Proof.
  assert (raw (normalise format rawInput) = trim rawInput) as R.
  { destruct (normalise_formats rawInput)
      as [(_ & _ & R & _ & E)|(rest & _ & _ & E1 & E2)];
      destruct format; rewrite ?E, ?E1, ?E2; done. }
  split; [exact R|].
  destruct (normalise_cases format rawInput)
    as [(V & C & Re)|(rest & _ & _ & V & Re & C)]; rewrite V, C.
  - split; [|split].
    + split; [discriminate|]. by intros [? ?].
    + split; [discriminate|]. destruct Re as [Re|[Re|Re]]; rewrite Re; discriminate.
    + done.
  - rewrite Re. split; [|split].
    + split; [eauto|done].
    + done.
    + split; [discriminate|]. intros [?|[?|?]]; discriminate.
Qed.

(** X2: the output format plays no part in acceptance.  Both formats return
    the same [valid], [reason] and [raw], and their canonical values differ
    only in the prefix: ["+62"] in one, ["0"] in the other, before the same
    digits. *)
Theorem normalise_format_independent (rawInput : jsstring) :
  valid (normalise local0 rawInput) = valid (normalise e164 rawInput) /\
  reason (normalise local0 rawInput) = reason (normalise e164 rawInput) /\
  raw (normalise local0 rawInput) = raw (normalise e164 rawInput) /\
  (canonical (normalise e164 rawInput) = None /\
   canonical (normalise local0 rawInput) = None
   \/
   exists rest,
     canonical (normalise e164 rawInput) = Some (str "+62" ++ rest) /\
     canonical (normalise local0 rawInput) = Some (str "0" ++ rest)).
Proof.
  destruct (normalise_formats rawInput)
    as [(_ & C & _ & _ & E)|(rest & _ & _ & E1 & E2)].
  - rewrite E. split_and!; [done..|]. left. done.
  - rewrite E1, E2. split_and!; [done..|]. right. by exists rest.
Qed.

Lemma canonical_e164_again (format : PhoneFormat) (rest : jsstring) :
  forallb isDigit rest = true ->
  10 <= Z.of_nat (length rest) + 2 <= 15 ->
  normalise format (str "+62" ++ rest)
  = build (str "+62" ++ rest)
      (Some (match format with
             | e164 => str "+62" ++ rest
             | local0 => str "0" ++ rest
             end)) true None.
Proof.
  intros D B.
  assert (forallb (fun c => negb (nonDigit c)) (str "+62" ++ rest) = true) as K.
  { rewrite forallb_app, (digits_kept rest D). reflexivity. }
  unfold normalise. rewrite (trim_clean _ (kept_no_whitespace _ K)).
  change (falsy (str "+62" ++ rest)) with false. cbv iota.
  assert (clean (str "+62" ++ rest) = str "+62" ++ rest) as ->.
  { unfold clean. rewrite (replace_nonDigit_kept _ K). reflexivity. }
  assert (classify (str "+62" ++ rest) (str "+62" ++ rest)
          = inr (str "+62" ++ rest)) as ->.
  { unfold classify.
    change (startsWith (str "+62") (str "+62" ++ rest)) with true. cbv iota.
    change (slice 1 (str "+62" ++ rest)) with (str "62" ++ rest).
    assert (allDigits (str "62" ++ rest) = true) as ->; [|done].
    change (allDigits (str "62" ++ rest))
      with (isDigit 54 && (isDigit 50 && forallb isDigit rest)).
    by rewrite D. }
  change (startsWith (str "+62") (str "+62" ++ rest)) with true. simpl negb.
  cbv iota. unfold MIN_LEN, MAX_LEN. rewrite length_app.
  change (length (str "+62")) with 3%nat.
  assert ((Z.of_nat (3 + length rest) - 1 <? 10)
          || (Z.of_nat (3 + length rest) - 1 >? 15) = false) as ->; [|done].
  apply orb_false_iff. rewrite Z.gtb_ltb. split; apply Z.ltb_ge; lia.
Qed.

Lemma canonical_local0_again (format : PhoneFormat) (rest : jsstring) :
  forallb isDigit rest = true ->
  10 <= Z.of_nat (length rest) + 2 <= 15 ->
  normalise format (str "0" ++ rest)
  = build (str "0" ++ rest)
      (Some (match format with
             | e164 => str "+62" ++ rest
             | local0 => str "0" ++ rest
             end)) true None.
Proof.
  intros D B.
  assert (forallb (fun c => negb (nonDigit c)) (str "0" ++ rest) = true) as K.
  { rewrite forallb_app, (digits_kept rest D). reflexivity. }
  unfold normalise. rewrite (trim_clean _ (kept_no_whitespace _ K)).
  change (falsy (str "0" ++ rest)) with false. cbv iota.
  assert (clean (str "0" ++ rest) = str "0" ++ rest) as ->.
  { unfold clean. rewrite (replace_nonDigit_kept _ K). reflexivity. }
  assert (classify (str "0" ++ rest) (str "0" ++ rest)
          = inr (str "+62" ++ rest)) as ->.
  { unfold classify.
    change (startsWith (str "+62") (str "0" ++ rest)) with false.
    change (startsWith (str "62") (str "0" ++ rest)) with false.
    change (startsWith (str "0") (str "0" ++ rest)) with true. cbv iota.
    change (slice 1 (str "0" ++ rest)) with rest.
    assert (allDigits rest = true) as ->; [|done].
    destruct rest; [simpl in B; lia|exact D]. }
  change (startsWith (str "+62") (str "+62" ++ rest)) with true. simpl negb.
  cbv iota. unfold MIN_LEN, MAX_LEN. rewrite length_app.
  change (length (str "+62")) with 3%nat.
  assert ((Z.of_nat (3 + length rest) - 1 <? 10)
          || (Z.of_nat (3 + length rest) - 1 >? 15) = false) as ->; [|done].
  apply orb_false_iff. rewrite Z.gtb_ltb. split; apply Z.ltb_ge; lia.
Qed.

(** X3: canonical values are fixed points.  Feeding the canonical value of a
    valid result back into a normaliser of either format gives a valid
    result whose canonical value is the one that format produces for the
    original input; with the same format, the value comes back unchanged. *)
Theorem normalise_canonical_again (format format' : PhoneFormat)
    (rawInput c : jsstring) :
  canonical (normalise format rawInput) = Some c ->
  normalise format' c
  = build c (canonical (normalise format' rawInput)) true None.
Proof.
  intros C.
  destruct (normalise_formats rawInput)
    as [(_ & Cn & _ & _ & E)|(rest & D & B & E1 & E2)].
  - destruct format; rewrite ?E, Cn in C; discriminate C.
  - destruct format.
    + rewrite E1 in C. injection C as <-.
      etransitivity; [apply (canonical_e164_again format' rest D B)|].
      destruct format'; by rewrite ?E1, ?E2.
    + rewrite E2 in C. injection C as <-.
      etransitivity; [apply (canonical_local0_again format' rest D B)|].
      destruct format'; by rewrite ?E1, ?E2.
Qed.

Lemma normalise_canonical_again_witness :
  normalise local0 (str "+6281234567890")
  = build (str "+6281234567890")
      (canonical (normalise local0 (str "+62 812-3456-7890"))) true None.
Proof.
  apply (normalise_canonical_again e164 local0 (str "+62 812-3456-7890")).
  reflexivity.
Defined.

(** Once the input is not blank, the outcome is read off the characters
    [+] and [0-9] of the input alone. *)
Lemma normalise_by_digits (format : PhoneFormat) (x y : jsstring) :
  trim x <> [] -> trim y <> [] ->
  replace_nonDigit x = replace_nonDigit y ->
  valid (normalise format x) = valid (normalise format y) /\
  canonical (normalise format x) = canonical (normalise format y) /\
  reason (normalise format x) = reason (normalise format y).
Proof.
  intros Tx Ty E. unfold normalise.
  destruct (trim x) as [|cx rx] eqn:Ex; [done|].
  destruct (trim y) as [|cy ry] eqn:Ey; [done|].
  cbn [falsy]. rewrite <- Ex, <- Ey.
  assert (clean (trim x) = clean (trim y)) as Ec.
  { unfold clean. by rewrite !replace_nonDigit_trim, E. }
  rewrite Ec.
  pose proof (classify_raw (trim x) (trim y) (clean (trim y))) as R.
  destruct (classify (trim x) _) as [a|a], (classify (trim y) _) as [b|b];
    try done.
  - destruct R as (_ & _ & Va & Vb & Ca & Cb & Re & _). by rewrite Va, Vb, Ca, Cb, Re.
  - subst b. destruct (negb _); [done|]. destruct (_ || _); [done|].
    by destruct format.
Qed.

(** X4: characters other than [+] and the digits carry no weight.  Putting
    any such character (a space, a dash, a letter) anywhere into an input
    that is not blank changes neither [valid] nor the canonical value nor
    the reason. *)
Theorem normalise_ignores_non_digits (format : PhoneFormat)
    (s t : jsstring) (c : char) :
  nonDigit c = true ->
  trim (s ++ t) <> [] ->
  valid (normalise format (s ++ c :: t)) = valid (normalise format (s ++ t)) /\
  canonical (normalise format (s ++ c :: t))
  = canonical (normalise format (s ++ t)) /\
  reason (normalise format (s ++ c :: t)) = reason (normalise format (s ++ t)).
Proof.
  intros Hc T. apply normalise_by_digits; [|done|].
  - intros E. apply T. apply trim_nil_iff. apply trim_nil_iff in E.
    rewrite forallb_app in E |- *. simpl in E.
    apply andb_true_iff in E as [E1 [_ E2]%andb_true_iff]. by rewrite E1, E2.
  - unfold replace_nonDigit. rewrite !List.filter_app. simpl. by rewrite Hc.
Qed.

Lemma normalise_ignores_non_digits_witness :
  canonical (normalise e164 (str "0812" ++ 45%N :: str "34567890"))
  = canonical (normalise e164 (str "0812" ++ str "34567890")).
Proof.
  apply (normalise_ignores_non_digits e164 (str "0812") (str "34567890") 45%N).
  - reflexivity.
  - discriminate.
Defined.

(** X5: the reason [empty] is given to blank inputs and to no others: the
    inputs made of white space only, in the sense of [trim], the empty
    string among them. *)
Theorem normalise_empty_iff_blank (format : PhoneFormat) (rawInput : jsstring) :
  reason (normalise format rawInput) = Some (str "empty") <->
  forallb isWhiteSpace rawInput = true.
Proof.
  rewrite <- trim_nil_iff. unfold normalise.
  destruct (trim rawInput) as [|c0 r0] eqn:T; [done|].
  cbn [falsy]. rewrite <- T. split; [|by rewrite T].
  pose proof (classify_raw (trim rawInput) (trim rawInput)
                (clean (trim rawInput))) as R.
  destruct (classify _ _) as [early|c].
  - destruct R as (_ & _ & _ & _ & _ & _ & _ & [Re|Re]); rewrite Re; discriminate.
  - destruct (negb _); [discriminate|]. destruct (_ || _); discriminate.
Qed.

Lemma digits_no_plus (s : jsstring) :
  forallb isDigit s = true -> startsWith (str "+") s = false.
Proof.
  destruct s as [|c s]; [done|]. cbn [forallb].
  intros [Hc _]%andb_true_iff.
  change (startsWith (str "+") (c :: s)) with ((43 =? c)%N && true).
  unfold isDigit in Hc. apply andb_true_iff in Hc as [Lo _].
  apply N.leb_le in Lo. rewrite andb_true_r. apply N.eqb_neq. lia.
Qed.

(** X6: for an input made of digits only the verdict is a matter of length.
    With the prefix [62] it takes 10 to 15 digits, with the prefix [0] it
    takes 9 to 14, and without either it takes 9 to 13. *)
Theorem normalise_digit_strings (format : PhoneFormat) (s : jsstring) :
  forallb isDigit s = true ->
  (valid (normalise format s) = true <->
   if startsWith (str "62") s then 10 <= Z.of_nat (length s) <= 15
   else if startsWith (str "0") s then 9 <= Z.of_nat (length s) <= 14
   else 9 <= Z.of_nat (length s) <= 13).
Proof.
  intros D. rewrite normalise_valid_iff.
  pose proof (digits_kept s D) as K.
  rewrite (trim_clean _ (kept_no_whitespace _ K)).
  assert (clean s = s) as ->.
  { unfold clean. by rewrite (replace_nonDigit_kept _ K), (digits_no_plus s D). }
  unfold classify.
  assert (startsWith (str "+62") s = false) as ->.
  { destruct s as [|c s]; [done|]. pose proof (digits_no_plus _ D) as P.
    change (startsWith (str "+") (c :: s)) with ((43 =? c)%N && true) in P.
    change (startsWith (str "+62") (c :: s))
      with ((43 =? c)%N && startsWith (str "62") s).
    rewrite andb_true_r in P. by rewrite P. }
  destruct (startsWith (str "62") s) eqn:S62.
  { apply startsWith_app in S62 as [rest ->].
    change (slice 2 (str "62" ++ rest)) with rest.
    rewrite length_app. change (length (str "62")) with 2%nat.
    destruct rest as [|c rest].
    - simpl. split; [|lia]. by intros [_ (? & ? & _)].
    - assert (allDigits (c :: rest) = true) as ->.
      { rewrite forallb_app in D. by apply andb_true_iff in D as [_ D]. }
      split.
      + intros [_ (r & [= <-] & B)]. lia.
      + intros B. split; [done|]. exists (c :: rest). split; [done|lia]. }
  destruct (startsWith (str "0") s) eqn:S0.
  { apply startsWith_app in S0 as [rest ->].
    change (slice 1 (str "0" ++ rest)) with rest.
    rewrite length_app. change (length (str "0")) with 1%nat.
    destruct rest as [|c rest].
    - simpl. split; [|lia]. by intros [_ (? & ? & _)].
    - assert (allDigits (c :: rest) = true) as ->.
      { rewrite forallb_app in D. by apply andb_true_iff in D as [_ D]. }
      split.
      + intros [_ (r & [= <-] & B)]. lia.
      + intros B. split; [done|]. exists (c :: rest). split; [done|lia]. }
  destruct s as [|c s].
  { simpl. split; [|lia]. by intros [? _]. }
  assert (allDigits (c :: s) = true) as -> by exact D. cbn [negb].
  destruct (_ && _) eqn:L.
  - apply andb_true_iff in L as [L1 L2]. apply Z.leb_le in L1, L2.
    split; [lia|]. intros _. split; [done|]. exists (c :: s). split; [done|lia].
  - split.
    + by intros [_ (? & ? & _)].
    + intros B. apply andb_false_iff in L as [L|L]; apply Z.leb_gt in L; lia.
Qed.

Lemma normalise_digit_strings_witness :
  valid (normalise e164 (str "85678901234")) = true <->
  9 <= Z.of_nat (length (str "85678901234")) <= 13.
Proof.
  apply (normalise_digit_strings e164 (str "85678901234")). reflexivity.
Defined.

(** * Further properties of the repository *)

(** X7: [findByNik] returns the last patient of the array that carries the
    NIK: the patient at the returned position has an identifier of the NIK
    system with that value, and no later patient has one. *)
Theorem findByNik_last (ps : list PatientResource.t) (k : jsstring) (ref : nat) :
  findByNik (newRepository ps) k = Some ref <->
  exists p, ps !! ref = Some p /\ hasNik k p = true /\
            forall j q, (ref < j)%nat -> ps !! j = Some q -> hasNik k q = false.
Proof.
  unfold findByNik, newRepository. simpl. split.
  - intros H. destruct (existsb (hasNik k) ps) eqn:E.
    + apply last_with in E as (l1 & p & l2 & -> & Hp & H2).
      rewrite (indexPatients_last l1 l2 p 0 ∅ k Hp H2) in H.
      injection H as <-. exists p. split_and!.
      * by rewrite list_lookup_middle.
      * done.
      * intros j q Lt Hj. apply H2.
        rewrite lookup_app_r in Hj by lia.
        destruct (j - length l1)%nat as [|n] eqn:En; [lia|]. simpl in Hj.
        by eapply list_elem_of_lookup_2.
    + rewrite indexPatients_absent, lookup_empty in H; [done|].
      intros q Hq. destruct (hasNik k q) eqn:Hk; [|done].
      assert (existsb (hasNik k) ps = true); [|congruence].
      apply existsb_exists. exists q. split; [|done]. by apply list_elem_of_In.
  - intros (p & L & Hp & Later).
    rewrite <- (take_drop_middle ps ref p L).
    rewrite (indexPatients_last (take ref ps) (drop (S ref) ps) p 0 ∅ k Hp).
    + f_equal. rewrite length_take. apply lookup_lt_Some in L. lia.
    + intros q Hq. apply list_elem_of_lookup in Hq as [i Hi].
      rewrite lookup_drop in Hi. apply (Later (S ref + i)%nat q); [lia|done].
Qed.

Lemma findByNik_last_witness :
  exists p, Sample.onePatient !! 0%nat = Some p /\ hasNik Sample.nikA p = true /\
            forall j q, (0 < j)%nat -> Sample.onePatient !! j = Some q ->
                        hasNik Sample.nikA q = false.
Proof.
  apply (proj1 (findByNik_last Sample.onePatient Sample.nikA 0)).
  by vm_compute.
Defined.

(** X8: [findByNik] finds nothing exactly when no patient carries the NIK;
    identifiers of other systems do not count. *)
Theorem findByNik_missing (ps : list PatientResource.t) (k : jsstring) :
  findByNik (newRepository ps) k = None <->
  forall p, p ∈ ps -> hasNik k p = false.
Proof.
  split.
  - intros H p Hp. destruct (hasNik k p) eqn:Hk; [|done].
    assert (existsb (hasNik k) ps = true) as E.
    { apply existsb_exists. exists p. split; [|done]. by apply list_elem_of_In. }
    apply last_with in E as (l1 & x & l2 & -> & Hx & H2).
    unfold findByNik, newRepository in H. simpl in H.
    by rewrite (indexPatients_last l1 l2 x 0 ∅ k Hx H2) in H.
  - intros H. unfold findByNik, newRepository. simpl.
    by rewrite indexPatients_absent, lookup_empty.
Qed.

Lemma findByNik_missing_witness :
  findByNik (newRepository Sample.onePatient) Sample.nikB = None.
Proof.
  apply (proj2 (findByNik_missing Sample.onePatient Sample.nikB)).
  intros p Hp. apply list_elem_of_singleton in Hp as ->. reflexivity.
Defined.

(** ** What a call of [applyPhone] reports and leaves behind *)

Lemma nextVersionId_changes (unsafeIncrement : jsstring -> jsstring)
    (vid : option jsstring) :
  (forall suffix, vid = Some (str "v" ++ suffix) -> allDigits suffix = true ->
                  parseInt suffix < 2 ^ 53) ->
  Some (nextVersionId unsafeIncrement vid) <> vid.
Proof.
  intros B. destruct vid as [v|]; [|done].
  assert (Some (orElse (Some v) (str "v000") ++ str "-updated") <> Some v) as F.
  { intros [= E]. destruct v as [|c v]; [discriminate E|].
    apply (f_equal length) in E. rewrite length_app in E.
    simpl in E. lia. }
  unfold nextVersionId. destruct (startsWith (str "v") v) eqn:S; [|exact F].
  apply startsWith_app in S as [suffix ->].
  change (slice 1 (str "v" ++ suffix)) with suffix.
  destruct (allDigits suffix) eqn:D; [|exact F].
  unfold incrementToString.
  specialize (B suffix eq_refl D). apply Z.ltb_lt in B as B'. rewrite B'.
  intros [= E]. apply (f_equal parseInt) in E.
  rewrite parseInt_padStart0, parseInt_toString in E; [lia|].
  pose proof (parseInt_nonneg suffix 0) as NN. unfold parseInt.
  apply allDigits_forallb in D as [D _]. specialize (NN D). lia.
Qed.

(** X9: the flag [applyPhone] returns is accurate: it is [true] exactly when
    the call changed the record. *)
Theorem applyPhone_flag (unsafeIncrement : jsstring -> jsstring)
    (now : jsstring) (patient : PatientResource.t) (phone : jsstring) :
  (applyPhone unsafeIncrement now patient phone).2 = true <->
  (applyPhone unsafeIncrement now patient phone).1 <> patient.
Proof.
  destruct (applyPhone_paths unsafeIncrement now patient phone)
    as [(i & t & F & V & ->)|[(i & t & F & V & ->)|(F & ->)]]; simpl.
  - split; [discriminate|done].
  - split; [|done]. intros _ E.
    apply (f_equal PatientResource.telecom) in E. simpl in E.
    destruct (PatientResource.telecom patient) as [ts|] eqn:T; [|discriminate E].
    simpl in *. injection E as E.
    apply list_find_Some in F as (L & _ & _).
    apply (f_equal (fun l => l !! i)) in E.
    rewrite list_lookup_insert_eq in E by eauto using lookup_lt_Some.
    rewrite L in E. injection E as E. apply V. by rewrite <- E.
  - split; [|done]. intros _ E.
    apply (f_equal PatientResource.telecom) in E. simpl in E.
    destruct (PatientResource.telecom patient) as [ts|] eqn:T; [|discriminate E].
    simpl in E. injection E as E. apply (f_equal length) in E.
    rewrite length_app in E. simpl in E. lia.
Qed.

(** X10: after a call that returned [true], the located channel is exactly
    system [phone], use [mobile], the applied value and rank 1, and
    [meta.lastUpdated] is the fresh timestamp. *)
Theorem applyPhone_changed_channel (unsafeIncrement : jsstring -> jsstring)
    (now : jsstring) (patient patient' : PatientResource.t) (phone : jsstring) :
  applyPhone unsafeIncrement now patient phone = (patient', true) ->
  mobileChannel patient'
  = Some (PatientTelecom.mk (str "phone") (Some (str "mobile")) phone (Some 1))
  /\ lastUpdatedOf patient' = Some now.
Proof.
  intros E. split; [|by apply applyPhone_changed_meta in E as [_ ?]].
  destruct (applyPhone_mobileChannel unsafeIncrement now patient phone)
    as (i' & t' & F' & _).
  unfold mobileChannel. rewrite E in F'. simpl in F'. rewrite F'. simpl.
  f_equal.
  destruct (applyPhone_paths unsafeIncrement now patient phone)
    as [(i & t & F & V & E')|[(i & t & F & V & E')|(F & E')]];
    rewrite E' in E; [discriminate E| |]; injection E as <-; simpl in F'.
  - pose proof F as (L & M & _)%list_find_Some.
    apply list_find_insert_Some in F'
      as [[Hlt F']|[(_ & <- & _)|[(_ & N & _)|(z & _ & N & _)]]].
    + rewrite F in F'. injection F' as -> _. lia.
    + unfold overwrite. unfold isMobilePhone in M.
      apply andb_true_iff in M as [Ms Mu].
      apply eqb_eq in Ms. rewrite Ms.
      destruct (PatientTelecom.use t) as [u|]; [|discriminate Mu].
      apply eqb_eq in Mu. by rewrite Mu.
    + by destruct N.
    + by destruct N.
  - rewrite list_find_app_r in F' by done. simpl in F'. by injection F' as _ <-.
Qed.

Lemma applyPhone_changed_channel_witness :
  mobileChannel
    (applyPhone Sample.noIncrement (Sample.fixedClock 0)
       (Sample.patient (str "patient-001") [Sample.nikA] (str "v001"))
       (str "+6281234567890")).1
  = Some (Sample.mobile (str "+6281234567890")).
Proof.
  apply (applyPhone_changed_channel Sample.noIncrement (Sample.fixedClock 0)
           (Sample.patient (str "patient-001") [Sample.nikA] (str "v001"))).
  reflexivity.
Defined.

(** X11: the version tag moves exactly when the phone does.  As long as a
    tag of the shape [v<digits>] stays below [2^53], [applyPhone] returns
    [true] if and only if it leaves the record with a different version
    tag. *)
Theorem applyPhone_version_iff_changed (unsafeIncrement : jsstring -> jsstring)
    (now : jsstring) (patient : PatientResource.t) (phone : jsstring) :
  (forall suffix,
      versionIdOf patient = Some (str "v" ++ suffix) ->
      allDigits suffix = true -> parseInt suffix < 2 ^ 53) ->
  ((applyPhone unsafeIncrement now patient phone).2 = true <->
   versionIdOf (applyPhone unsafeIncrement now patient phone).1
   <> versionIdOf patient).
Proof.
  intros B.
  destruct (applyPhone unsafeIncrement now patient phone) as [p' changed] eqn:E.
  simpl. destruct changed.
  - split; [|done]. intros _.
    apply applyPhone_changed_meta in E as [-> _].
    by apply nextVersionId_changes.
  - split; [discriminate|]. intros H. exfalso. apply H.
    destruct (applyPhone_paths unsafeIncrement now patient phone)
      as [(i & t & _ & _ & E')|[(i & t & _ & _ & E')|(_ & E')]];
      rewrite E' in E; [|discriminate E..]. by injection E as <-.
Qed.

Lemma applyPhone_version_iff_changed_witness :
  (applyPhone Sample.noIncrement (Sample.fixedClock 0)
     (Sample.patient (str "patient-001") [Sample.nikA] (str "v001"))
     (str "+6281234567890")).2 = true <->
  versionIdOf
    (applyPhone Sample.noIncrement (Sample.fixedClock 0)
       (Sample.patient (str "patient-001") [Sample.nikA] (str "v001"))
       (str "+6281234567890")).1
  <> versionIdOf (Sample.patient (str "patient-001") [Sample.nikA] (str "v001")).
Proof.
  apply (applyPhone_version_iff_changed Sample.noIncrement (Sample.fixedClock 0)
           (Sample.patient (str "patient-001") [Sample.nikA] (str "v001"))).
  intros suffix [= <-] _. reflexivity.
Defined.

(** * Further properties of the sheet source and the loop *)

(** ** The ordering step *)

Lemma sortBy_sorted_id {A : Type} (key : A -> Z) (l : list A) :
  StronglySorted (fun a b => key a <= key b) l ->
  sortBy (fun a b => key a - key b) l = l.
Proof.
  induction 1 as [|x l S IH F]; [done|].
  cbn [sortBy fold_right]. fold (sortBy (fun a b => key a - key b) l).
  rewrite IH. destruct l as [|y l]; [done|].
  cbn [insertBy]. apply Forall_cons in F as [Hy _].
  assert ((key x - key y <=? 0) = true) as ->; [|done].
  apply Z.leb_le. lia.
Qed.

(** A list that is ascending and keeps, for every key, the elements of that
    key in a given order is determined by these two facts. *)
Lemma sorted_stable_unique {A : Type} (key : A -> Z) (l1 l2 : list A) :
  StronglySorted (fun a b => key a <= key b) l1 ->
  StronglySorted (fun a b => key a <= key b) l2 ->
  (forall k, List.filter (fun a => key a =? k) l1
             = List.filter (fun a => key a =? k) l2) ->
  l1 = l2.
Proof.
  intros S1. revert l2. induction S1 as [|x l1 S1 IH F1]; intros l2 S2 E.
  - destruct l2 as [|y l2]; [done|].
    specialize (E (key y)). simpl in E. by rewrite Z.eqb_refl in E.
  - destruct S2 as [|y l2 S2 F2].
    { specialize (E (key x)). simpl in E. by rewrite Z.eqb_refl in E. }
    assert (forall (z : A) (l l' : list A) k,
               Forall (fun b => key z <= key b) l ->
               List.filter (fun a => key a =? k) (z :: l) = l' ->
               k < key z -> l' = []) as Low.
    { intros z l l' k Fz <- Lt. cbn [List.filter].
      assert ((key z =? k) = false) as -> by (apply Z.eqb_neq; lia).
      induction Fz as [|b l Hb _ IHz]; [done|]. cbn [List.filter].
      assert ((key b =? k) = false) as -> by (apply Z.eqb_neq; lia). exact IHz. }
    assert (key x = key y) as K.
    { destruct (Z.lt_trichotomy (key x) (key y)) as [Lt|[Eq|Gt]]; [|done|].
      - pose proof (E (key x)) as Ex.
        rewrite (Low y l2 _ (key x) F2 eq_refl Lt) in Ex.
        simpl in Ex. by rewrite Z.eqb_refl in Ex.
      - pose proof (E (key y)) as Ey. symmetry in Ey.
        rewrite (Low x l1 _ (key y) F1 eq_refl Gt) in Ey.
        simpl in Ey. by rewrite Z.eqb_refl in Ey. }
    assert (x = y) as ->.
    { specialize (E (key x)). cbn [List.filter] in E.
      rewrite <- K, Z.eqb_refl in E. by injection E. }
    f_equal. apply IH; [done|]. intros k. specialize (E k).
    cbn [List.filter] in E. destruct (key y =? k); [by injection E|done].
Qed.

(** X12: the contract of the ordering step.  The sorted rows are a
    permutation of the rows read, ascending in the parsed date, with rows
    of equal date in their original order; and they are the only list with
    these properties, so any stable sort yields them.  Sorting again
    changes nothing. *)
Theorem sortRows_contract (rows : list SheetRow) :
  sortRows rows ≡ₚ rows /\
  StronglySorted (fun a b => rowKey a <= rowKey b) (sortRows rows) /\
  (forall k, List.filter (fun r => rowKey r =? k) (sortRows rows)
             = List.filter (fun r => rowKey r =? k) rows) /\
  (forall other,
      StronglySorted (fun a b => rowKey a <= rowKey b) other ->
      (forall k, List.filter (fun r => rowKey r =? k) other
                 = List.filter (fun r => rowKey r =? k) rows) ->
      other = sortRows rows) /\
  sortRows (sortRows rows) = sortRows rows.
Proof.
  split_and!.
  - apply sortRows_Permutation.
  - apply sortRows_sorted.
  - intros k. apply sortRows_stable.
  - intros other S E. apply (sorted_stable_unique rowKey); [done| |].
    + apply sortRows_sorted.
    + intros k. by rewrite E, sortRows_stable.
  - apply (sortBy_sorted_id rowKey), sortRows_sorted.
Qed.

(** ** The loop: audit list, patients, routing *)

Section RunMore.

Variable unsafeIncrement : jsstring -> jsstring.
Variable clock : nat -> jsstring.
Context {normalizer : IPhoneNormalizer}.

Lemma processRow_audit (s : Service) (row : SheetRow) :
  Z.of_nat (length (invalid (reporter (processRow unsafeIncrement clock s row))))
  - invalidFormat (stats (reporter (processRow unsafeIncrement clock s row)))
  - missingPatient (stats (reporter (processRow unsafeIncrement clock s row)))
  = Z.of_nat (length (invalid (reporter s)))
    - invalidFormat (stats (reporter s)) - missingPatient (stats (reporter s)).
Proof.
  unfold processRow.
  destruct (accepted _) as [phone|].
  - destruct (findByNik _ _) as [patient|].
    + destruct (applyPhoneAt _ _ _ _ _) as [repo' [|]]; simpl; lia.
    + simpl. rewrite length_app. simpl. lia.
  - unfold recordInvalid. destruct (eqb _ _); simpl; rewrite length_app;
      simpl; lia.
Qed.

Lemma fold_processRow_audit (rows : list SheetRow) (s : Service) :
  Z.of_nat (length (invalid (reporter
     (fold_left (processRow unsafeIncrement clock) rows s))))
  - invalidFormat (stats (reporter
       (fold_left (processRow unsafeIncrement clock) rows s)))
  - missingPatient (stats (reporter
       (fold_left (processRow unsafeIncrement clock) rows s)))
  = Z.of_nat (length (invalid (reporter s)))
    - invalidFormat (stats (reporter s)) - missingPatient (stats (reporter s)).
Proof.
  revert s. induction rows as [|row rows IH]; intros s; [done|].
  cbn [fold_left]. rewrite IH. apply processRow_audit.
Qed.

Lemma applyPhone_identity (now : jsstring) (p : PatientResource.t)
    (phone : jsstring) :
  PatientResource.resourceType (applyPhone unsafeIncrement now p phone).1
  = PatientResource.resourceType p /\
  PatientResource.id (applyPhone unsafeIncrement now p phone).1
  = PatientResource.id p /\
  PatientResource.identifier (applyPhone unsafeIncrement now p phone).1
  = PatientResource.identifier p /\
  PatientResource.extra (applyPhone unsafeIncrement now p phone).1
  = PatientResource.extra p.
Proof.
  destruct (applyPhone_paths unsafeIncrement now p phone)
    as [(i & t & _ & _ & ->)|[(i & t & _ & _ & ->)|(_ & ->)]]; done.
Qed.

Lemma processRow_identity (s : Service) (row : SheetRow) (i : nat)
    (p : PatientResource.t) :
  patients (repo s) !! i = Some p ->
  exists p', patients (repo (processRow unsafeIncrement clock s row)) !! i = Some p' /\
             PatientResource.resourceType p' = PatientResource.resourceType p /\
             PatientResource.id p' = PatientResource.id p /\
             PatientResource.identifier p' = PatientResource.identifier p /\
             PatientResource.extra p' = PatientResource.extra p.
Proof.
  intros L. unfold processRow.
  destruct (accepted _) as [phone|]; [|by exists p].
  destruct (findByNik _ _) as [ref|]; [|by exists p].
  unfold applyPhoneAt.
  destruct (patients (repo s) !! ref) as [q|] eqn:Q; [|by exists p].
  pose proof (applyPhone_identity (clock (ticks s)) q phone) as Id.
  destruct (applyPhone _ _ _ _) as [q' c]. simpl in Id.
  assert (exists p', <[ref := q']> (patients (repo s)) !! i = Some p' /\
             PatientResource.resourceType p' = PatientResource.resourceType p /\
             PatientResource.id p' = PatientResource.id p /\
             PatientResource.identifier p' = PatientResource.identifier p /\
             PatientResource.extra p' = PatientResource.extra p) as H.
  { destruct (decide (ref = i)) as [->|Ne].
    - rewrite L in Q. injection Q as <-. exists q'.
      rewrite list_lookup_insert_eq by eauto using lookup_lt_Some. done.
    - exists p. by rewrite list_lookup_insert_ne. }
  by destruct c.
Qed.

(** X13: the audit list and the counters agree.  After a run from a fresh
    reporter the list of rejected rows has as many entries as
    [invalidFormat] and [missingPatient] together, and [invalid_rows.csv]
    is written exactly when that number is not zero. *)
Theorem rejected_rows_audit (r : InMemoryPatientRepository) (t : nat)
    (rows : list SheetRow) :
  Z.of_nat (length (invalid (reporter
     (run unsafeIncrement clock (mkService r newReporter t) rows).1)))
  = invalidFormat (stats (reporter
       (run unsafeIncrement clock (mkService r newReporter t) rows).1))
    + missingPatient (stats (reporter
         (run unsafeIncrement clock (mkService r newReporter t) rows).1))
  /\
  (invalid_rows_csv (run unsafeIncrement clock (mkService r newReporter t) rows).2
   = None <->
   invalidFormat (stats (reporter
      (run unsafeIncrement clock (mkService r newReporter t) rows).1))
   + missingPatient (stats (reporter
        (run unsafeIncrement clock (mkService r newReporter t) rows).1)) = 0).
Proof.
  unfold run. cbn [fst snd].
  pose proof (fold_processRow_audit rows (mkService r newReporter t)) as A.
  simpl in A. split; [lia|].
  unfold writeOutputs. cbn [invalid_rows_csv].
  destruct (invalid _) as [|e es]; simpl in *; split; try done; lia.
Qed.

(** X14: the loop keeps the patients in place.  After a run the repository
    holds as many patients as before, under the same index, and each
    position holds a record with the same [resourceType], [id],
    [identifier] and open fields; these records are what is written out. *)
Theorem run_keeps_patients (s : Service) (rows : list SheetRow) :
  byNik (repo (run unsafeIncrement clock s rows).1) = byNik (repo s) /\
  length (patients (repo (run unsafeIncrement clock s rows).1))
  = length (patients (repo s)) /\
  patients_after_phone_update (run unsafeIncrement clock s rows).2
  = patients (repo (run unsafeIncrement clock s rows).1) /\
  (forall i p,
      patients (repo s) !! i = Some p ->
      exists p',
        patients (repo (run unsafeIncrement clock s rows).1) !! i = Some p' /\
        PatientResource.resourceType p' = PatientResource.resourceType p /\
        PatientResource.id p' = PatientResource.id p /\
        PatientResource.identifier p' = PatientResource.identifier p /\
        PatientResource.extra p' = PatientResource.extra p).
Proof.
  unfold run. cbn [fst snd].
  destruct (fold_processRow_shape unsafeIncrement clock rows s) as [B L].
  split_and!; [done..|].
  revert s B L. induction rows as [|row rows IH]; intros s _ _ i p Hp.
  - exists p. done.
  - cbn [fold_left].
    destruct (processRow_identity s row i p Hp) as (q & Hq & E1 & E2 & E3 & E4).
    destruct (fold_processRow_shape unsafeIncrement clock rows
                (processRow unsafeIncrement clock s row)) as [B' L'].
    destruct (IH _ B' L' i q Hq) as (p' & Hp' & F1 & F2 & F3 & F4).
    exists p'. split_and!; congruence.
Qed.

End RunMore.

(** ** Routing of the outcomes with the normaliser of the repository *)

(** X15: where a row goes.  With [PhoneNormalizer], a row whose phone is
    invalid is listed with the reason the normaliser gave and counted as
    [invalidFormat], never as [missingPatient], and no patient is looked
    up; a valid row with an unknown NIK is listed with the reason
    [missing_patient] and counted as [missingPatient]; a valid row with a
    known NIK adds nothing to the list. *)
Theorem processRow_routes (unsafeIncrement : jsstring -> jsstring)
    (clock : nat -> jsstring) (format : PhoneFormat) (s : Service)
    (row : SheetRow) :
  let norm := normalise format (rawPhone row) in
  let s' := processRow unsafeIncrement clock
              (normalizer := PhoneNormalizer format) s row in
  (valid norm = false ->
   exists r,
     reason norm = Some r /\
     repo s' = repo s /\ ticks s' = ticks s /\
     invalid (reporter s')
     = invalid (reporter s) ++ [mkInvalidRow (nik row) (rawPhone row) r] /\
     invalidFormat (stats (reporter s')) = invalidFormat (stats (reporter s)) + 1 /\
     missingPatient (stats (reporter s')) = missingPatient (stats (reporter s)))
  /\
  (valid norm = true -> findByNik (repo s) (nik row) = None ->
   repo s' = repo s /\ ticks s' = ticks s /\
   invalid (reporter s')
   = invalid (reporter s)
     ++ [mkInvalidRow (nik row) (rawPhone row) (str "missing_patient")] /\
   invalidFormat (stats (reporter s')) = invalidFormat (stats (reporter s)) /\
   missingPatient (stats (reporter s')) = missingPatient (stats (reporter s)) + 1)
  /\
  (valid norm = true -> is_Some (findByNik (repo s) (nik row)) ->
   invalid (reporter s') = invalid (reporter s) /\
   invalidFormat (stats (reporter s')) = invalidFormat (stats (reporter s)) /\
   missingPatient (stats (reporter s')) = missingPatient (stats (reporter s))).
Proof.
  intros norm s'. subst norm s'. unfold processRow. cbn [normalise_of PhoneNormalizer].
  split_and!.
  - intros V. unfold accepted. rewrite V.
    destruct (normalise_cases format (rawPhone row))
      as [(_ & _ & [R|[R|R]])|(rest & _ & _ & V' & _)]; [| | |congruence];
      rewrite R; eexists; (split; [reflexivity|]); done.
  - intros V F. destruct (accepted_normalise format _ V) as [A [c C]].
    rewrite A, C, F. done.
  - intros V [ref F]. destruct (accepted_normalise format _ V) as [A [c C]].
    rewrite A, C, F.
    destruct (applyPhoneAt _ _ _ _ _) as [repo' [|]]; done.
Qed.

Lemma processRow_routes_witness :
  exists r,
    reason (normalise e164 (str "62abc123")) = Some r /\
    repo (processRow Sample.noIncrement Sample.fixedClock
            (normalizer := PhoneNormalizer e164)
            (newService Sample.onePatient)
            (Sample.row (str "23-09-2025") Sample.nikA (str "62abc123")))
    = repo (newService Sample.onePatient).
Proof.
  destruct (proj1 (processRow_routes Sample.noIncrement Sample.fixedClock e164
                     (newService Sample.onePatient)
                     (Sample.row (str "23-09-2025") Sample.nikA (str "62abc123")))
              eq_refl) as (r & R & E & _).
  exists r. split; [exact R|exact E].
Defined.

(** ** From the text of the sheet to the counters *)

Lemma readRows_length (content : jsstring) :
  length (readRows content) = (length (nonBlankLines content) - 1)%nat.
Proof.
  unfold readRows. fold (nonBlankLines content).
  destruct (nonBlankLines content) as [|first rest]; [done|].
  rewrite length_map. simpl. lia.
Qed.

(** X16: no line of the sheet is lost.  The run counts one row for every
    line of the file that is not blank, the header line aside, whatever
    the lines hold. *)
Theorem run_counts_data_lines (unsafeIncrement : jsstring -> jsstring)
    (clock : nat -> jsstring) (normalizer : IPhoneNormalizer)
    (r : InMemoryPatientRepository) (t : nat) (content : jsstring) :
  totalRows (stats (reporter
     (run unsafeIncrement clock (mkService r newReporter t)
        (loadRows content)).1))
  = Z.of_nat (length (nonBlankLines content) - 1).
Proof.
  unfold run. cbn [fst].
  rewrite (proj1 (fold_processRow_stats unsafeIncrement clock _ _)).
  unfold loadRows.
  rewrite (Permutation_length (sortRows_Permutation _)), readRows_length.
  simpl. lia.
Qed.

Lemma readRows_no_phone_column (content : jsstring) :
  indexOf (str "phone_number") (sheetHeader content) = None ->
  forall row, row ∈ readRows content -> rawPhone row = [].
Proof.
  unfold sheetHeader, readRows. fold (nonBlankLines content).
  destruct (nonBlankLines content) as [|first rest]; intros H row In.
  - by apply elem_of_nil in In.
  - rewrite H in In. apply list_elem_of_In, in_map_iff in In as (line & <- & _).
    reflexivity.
Qed.

Lemma fold_processRow_blank (unsafeIncrement : jsstring -> jsstring)
    (clock : nat -> jsstring) (format : PhoneFormat) (rows : list SheetRow)
    (s : Service) :
  (forall row, row ∈ rows -> rawPhone row = []) ->
  let s' := fold_left (processRow unsafeIncrement clock
                         (normalizer := PhoneNormalizer format)) rows s in
  repo s' = repo s /\
  validUpdated (stats (reporter s')) = validUpdated (stats (reporter s)) /\
  validUnchanged (stats (reporter s')) = validUnchanged (stats (reporter s)) /\
  missingPatient (stats (reporter s')) = missingPatient (stats (reporter s)) /\
  invalidFormat (stats (reporter s'))
  = invalidFormat (stats (reporter s)) + Z.of_nat (length rows).
Proof.
  revert s. induction rows as [|row rows IH]; intros s H; simpl.
  - split_and!; [done..|lia].
  - assert (rawPhone row = []) as E by (apply H, list_elem_of_here).
    destruct (IH (processRow unsafeIncrement clock
                    (normalizer := PhoneNormalizer format) s row))
      as (R & U & N & M & I).
    { intros r Hr. apply H. by apply list_elem_of_further. }
    rewrite R, U, N, M, I. unfold processRow. cbn [normalise_of PhoneNormalizer].
    rewrite E. simpl. split_and!; [done..|lia].
Qed.

(** X17: a sheet without a [phone_number] column updates nothing.  Every
    data line is then read with an empty phone, rejected as [empty] and
    counted as [invalidFormat]; no patient is touched. *)
Theorem sheet_without_phone_column (unsafeIncrement : jsstring -> jsstring)
    (clock : nat -> jsstring) (format : PhoneFormat)
    (ps : list PatientResource.t) (content : jsstring) :
  indexOf (str "phone_number") (sheetHeader content) = None ->
  allPatients (repo (run unsafeIncrement clock
                       (normalizer := PhoneNormalizer format)
                       (newService ps) (loadRows content)).1) = ps /\
  buildStats (reporter (run unsafeIncrement clock
                          (normalizer := PhoneNormalizer format)
                          (newService ps) (loadRows content)).1)
  = mkStats (Z.of_nat (length (nonBlankLines content) - 1)) 0 0
      (Z.of_nat (length (nonBlankLines content) - 1)) 0.
Proof.
  intros H.
  pose proof (run_counts_data_lines unsafeIncrement clock (PhoneNormalizer format)
                (newRepository ps) 0 content) as T.
  unfold run, newService in *. cbn [fst] in *.
  destruct (fold_processRow_blank unsafeIncrement clock format
              (loadRows content) (mkService (newRepository ps) newReporter 0))
    as (R & U & N & M & I).
  { intros row Hr. apply (readRows_no_phone_column content H).
    unfold loadRows in Hr. by rewrite sortRows_Permutation in Hr. }
  split; [by rewrite R|].
  unfold buildStats. simpl in *.
  destruct (stats _) as [a b c d e]. simpl in *. subst.
  unfold loadRows.
  rewrite (Permutation_length (sortRows_Permutation _)), readRows_length.
  done.
Qed.

Lemma sheet_without_phone_column_witness :
  buildStats (reporter (run Sample.noIncrement Sample.fixedClock
                          (normalizer := PhoneNormalizer e164)
                          (newService Sample.onePatient)
                          (loadRows (str "nik_identifier,phone" ++ [10%N]
                                     ++ str "3171044203920001,081234567890"))).1)
  = mkStats
      (Z.of_nat (length (nonBlankLines
                           (str "nik_identifier,phone" ++ [10%N]
                            ++ str "3171044203920001,081234567890")) - 1)) 0 0
      (Z.of_nat (length (nonBlankLines
                           (str "nik_identifier,phone" ++ [10%N]
                            ++ str "3171044203920001,081234567890")) - 1)) 0.
Proof.
  apply (sheet_without_phone_column Sample.noIncrement Sample.fixedClock e164
           Sample.onePatient).
  reflexivity.
Defined.

(** * Further properties of the dates *)

Lemma div_step (y a n : Z) :
  0 < n ->
  (y + 1 - a) / n
  = (y - a) / n + (if (y + 1 - a) mod n =? 0 then 1 else 0).
Proof.
  intros. destruct ((y + 1 - a) mod n =? 0) eqn:E;
    rewrite ?Z.eqb_eq, ?Z.eqb_neq in *;
    Z.to_euclidean_division_equations; nia.
Qed.

Lemma mod_factor (y a b : Z) :
  0 < a -> 0 < b -> y mod (a * b) = 0 -> y mod a = 0.
Proof.
  intros Ha Hb H. apply Z.mod_divide in H; [|lia]. apply Z.mod_divide; [lia|].
  destruct H as [q ->]. exists (q * b). ring.
Qed.

(** A year has 365 days, and one more when it is a leap year. *)
Lemma dayFromYear_succ (y : Z) :
  dayFromYear (y + 1)
  = dayFromYear y + 365 + (if inLeapYear y then 1 else 0).
Proof.
  unfold dayFromYear, inLeapYear.
  rewrite (div_step y 1969 4), (div_step y 1901 100), (div_step y 1601 400)
    by lia.
  assert ((y + 1 - 1969) mod 4 = y mod 4) as ->
      by (Z.to_euclidean_division_equations; lia).
  assert ((y + 1 - 1901) mod 100 = y mod 100) as ->
      by (Z.to_euclidean_division_equations; lia).
  assert ((y + 1 - 1601) mod 400 = y mod 400) as ->
      by (Z.to_euclidean_division_equations; lia).
  pose proof (mod_factor y 4 25 ltac:(lia) ltac:(lia)) as H100.
  change (4 * 25) with 100 in H100.
  pose proof (mod_factor y 100 4 ltac:(lia) ltac:(lia)) as H400.
  change (100 * 4) with 400 in H400.
  destruct (y mod 4 =? 0) eqn:A; destruct (y mod 100 =? 0) eqn:B;
    destruct (y mod 400 =? 0) eqn:C; cbn [andb orb negb];
    rewrite ?Z.eqb_eq, ?Z.eqb_neq in *; try lia; exfalso; tauto.
Qed.

Lemma dayFromYear_mono (y y' : Z) :
  y <= y' -> dayFromYear y <= dayFromYear y'.
Proof.
  intros H. replace y' with (y + Z.of_nat (Z.to_nat (y' - y))) by lia.
  induction (Z.to_nat (y' - y)) as [|n IH].
  - replace (y + Z.of_nat 0) with y by lia. lia.
  - replace (y + Z.of_nat (S n)) with (y + Z.of_nat n + 1) by lia.
    rewrite dayFromYear_succ. destruct (inLeapYear _); lia.
Qed.

Lemma digit_value (c : char) : isDigit c = true -> 0 <= Z.of_N c - 48 <= 9.
Proof.
  unfold isDigit. intros [Lo Hi]%andb_true_iff. apply N.leb_le in Lo, Hi. lia.
Qed.

Lemma parseInt_2 (a b : char) :
  parseInt [a; b] = 10 * (Z.of_N a - 48) + (Z.of_N b - 48).
Proof. unfold parseInt. cbn [fold_left]. lia. Qed.

Lemma parseInt_4 (a b c d : char) :
  parseInt [a; b; c; d]
  = 1000 * (Z.of_N a - 48) + 100 * (Z.of_N b - 48) + 10 * (Z.of_N c - 48)
    + (Z.of_N d - 48).
Proof. unfold parseInt. cbn [fold_left]. lia. Qed.

(** What the regular expression accepts. *)
Lemma matchDate_Some (d dd mm yyyy : jsstring) :
  matchDate d = Some (dd, mm, yyyy) <->
  exists d1 d2 s1 m1 m2 s2 y1 y2 y3 y4,
    d = [d1; d2; s1; m1; m2; s2; y1; y2; y3; y4] /\
    dd = [d1; d2] /\ mm = [m1; m2] /\ yyyy = [y1; y2; y3; y4] /\
    forallb isDigit [d1; d2; m1; m2; y1; y2; y3; y4] = true /\
    isDateSeparator s1 = true /\ isDateSeparator s2 = true.
Proof.
  split.
  - destruct d as [|d1 [|d2 [|s1 [|m1 [|m2 [|s2 [|y1 [|y2 [|y3 [|y4 [|x r]]]]]]]]]]];
      try discriminate.
    unfold matchDate. destruct (_ && _) eqn:E; [|discriminate].
    intros [= <- <- <-].
    apply andb_true_iff in E as [[E1 E2]%andb_true_iff E3].
    by exists d1, d2, s1, m1, m2, s2, y1, y2, y3, y4.
  - intros (d1 & d2 & s1 & m1 & m2 & s2 & y1 & y2 & y3 & y4 &
            -> & -> & -> & -> & D & S1 & S2).
    unfold matchDate. by rewrite D, S1, S2.
Qed.

Lemma daysBeforeMonth_bounds (leap : bool) (mn : Z) :
  0 <= mn <= 11 -> 0 <= daysBeforeMonth leap mn <= 335.
Proof.
  intros B. unfold daysBeforeMonth.
  assert (mn = 0 \/ mn = 1 \/ mn = 2 \/ mn = 3 \/ mn = 4 \/ mn = 5 \/ mn = 6
          \/ mn = 7 \/ mn = 8 \/ mn = 9 \/ mn = 10 \/ mn = 11) as C by lia.
  destruct leap;
    repeat (destruct C as [->|C]; [vm_compute; split; discriminate|]);
    subst; vm_compute; split; discriminate.
Qed.

(** X18: the guard against [NaN] in [parseDate] never fires.  For every
    string the regular expression accepts, [Date.UTC] yields a time value,
    which is the day number of the (possibly overflowing) day, month and
    year times the length of a day, the year being read as 1900 + yy when
    it is below 100. *)
Theorem parseDate_matched (d dd mm yyyy : jsstring) :
  matchDate d = Some (dd, mm, yyyy) ->
  dateUTC (parseInt yyyy) (parseInt mm - 1) (parseInt dd) <> None /\
  parseDate d
  = makeDay (if (0 <=? parseInt yyyy) && (parseInt yyyy <=? 99)
             then 1900 + parseInt yyyy else parseInt yyyy)
      (parseInt mm - 1) (parseInt dd) * msPerDay.
Proof.
  intros M. pose proof M as (d1 & d2 & s1 & m1 & m2 & s2 & y1 & y2 & y3 & y4 &
                            -> & -> & -> & -> & D & S1 & S2)%matchDate_Some.
  assert (dateUTC (parseInt [y1; y2; y3; y4]) (parseInt [m1; m2] - 1)
            (parseInt [d1; d2])
          = Some (makeDay (if (0 <=? parseInt [y1; y2; y3; y4])
                              && (parseInt [y1; y2; y3; y4] <=? 99)
                           then 1900 + parseInt [y1; y2; y3; y4]
                           else parseInt [y1; y2; y3; y4])
                    (parseInt [m1; m2] - 1) (parseInt [d1; d2]) * msPerDay))
    as E.
  { unfold dateUTC.
    match goal with |- context [makeDay ?y _ _] => set (yr := y) end.
    assert (100 <= yr <= 9999) as By.
    { subst yr. rewrite parseInt_4. cbn [forallb] in D.
      repeat (apply andb_true_iff in D as [?%digit_value D]).
      destruct (_ && _) eqn:C.
      - apply andb_true_iff in C as [C1%Z.leb_le C2%Z.leb_le]. lia.
      - apply andb_false_iff in C as [C%Z.leb_gt|C%Z.leb_gt]; lia. }
    assert (-1 <= parseInt [m1; m2] - 1 <= 98 /\ 0 <= parseInt [d1; d2] <= 99)
      as [Bm Bd].
    { rewrite !parseInt_2. cbn [forallb] in D.
      repeat (apply andb_true_iff in D as [?%digit_value D]). lia. }
    generalize dependent (parseInt [m1; m2] - 1). intros m Bm.
    generalize dependent (parseInt [d1; d2]). intros dt Bd.
    clearbody yr. unfold makeDay.
    assert (-1 <= m / 12 <= 8) as Bq
        by (Z.to_euclidean_division_equations; lia).
    pose proof (Z.mod_pos_bound m 12 ltac:(lia)) as Br.
    pose proof (daysBeforeMonth_bounds (inLeapYear (yr + m / 12)) (m mod 12)
                  ltac:(lia)) as Bb.
    pose proof (dayFromYear_mono 99 (yr + m / 12) ltac:(lia)) as Lo.
    pose proof (dayFromYear_mono (yr + m / 12) 10007 ltac:(lia)) as Hi.
    let v := eval vm_compute in (dayFromYear 99) in
    change (dayFromYear 99) with v in Lo.
    let v := eval vm_compute in (dayFromYear 10007) in
    change (dayFromYear 10007) with v in Hi.
    unfold msPerDay.
    assert ((Z.abs ((dayFromYear (yr + m / 12)
                     + daysBeforeMonth (inLeapYear (yr + m / 12)) (m mod 12)
                     + dt - 1) * 86400000) <=? 8640000000000000) = true) as ->;
      [|done].
    apply Z.leb_le. lia. }
  split; [by rewrite E|].
  unfold parseDate. rewrite M. cbn [falsy]. by rewrite E.
Qed.

Lemma parseDate_matched_witness :
  parseDate (str "31-02-2025")
  = makeDay 2025 (parseInt (str "02") - 1) (parseInt (str "31")) * msPerDay.
Proof.
  apply (parseDate_matched (str "31-02-2025") (str "31") (str "02") (str "2025")).
  reflexivity.
Defined.

(** X19: years below 100 are read as years of the twentieth century, as
    [Date.UTC] prescribes: a date written with the year [00yy] is ordered
    exactly like the same day and month of the year [19yy]. *)
Theorem parseDate_two_digit_year (d1 d2 s1 m1 m2 s2 a b : char) :
  forallb isDigit [d1; d2; m1; m2; a; b] = true ->
  isDateSeparator s1 = true -> isDateSeparator s2 = true ->
  parseDate [d1; d2; s1; m1; m2; s2; 48%N; 48%N; a; b]
  = parseDate [d1; d2; s1; m1; m2; s2; 49%N; 57%N; a; b].
Proof.
  intros D S1 S2.
  cbn [forallb] in D.
  apply andb_true_iff in D as [D1 D]. apply andb_true_iff in D as [D2 D].
  apply andb_true_iff in D as [D3 D]. apply andb_true_iff in D as [D4 D].
  apply andb_true_iff in D as [Da D]. apply andb_true_iff in D as [Db _].
  assert (forall y1 y2 : char,
             isDigit y1 = true -> isDigit y2 = true ->
             matchDate [d1; d2; s1; m1; m2; s2; y1; y2; a; b]
             = Some ([d1; d2], [m1; m2], [y1; y2; a; b])) as M.
  { intros y1 y2 H1 H2. apply matchDate_Some.
    exists d1, d2, s1, m1, m2, s2, y1, y2, a, b. split_and!; try done.
    cbn [forallb]. by rewrite D1, D2, D3, D4, H1, H2, Da, Db. }
  rewrite (proj2 (parseDate_matched _ _ _ _ (M 48%N 48%N eq_refl eq_refl))).
  rewrite (proj2 (parseDate_matched _ _ _ _ (M 49%N 57%N eq_refl eq_refl))).
  rewrite !parseInt_4.
  apply digit_value in Da, Db.
  change (Z.of_N 48) with 48. change (Z.of_N 49) with 49.
  change (Z.of_N 57) with 57.
  assert ((0 <=? 1000 * (48 - 48) + 100 * (48 - 48) + 10 * (Z.of_N a - 48)
                 + (Z.of_N b - 48))
          && (1000 * (48 - 48) + 100 * (48 - 48) + 10 * (Z.of_N a - 48)
              + (Z.of_N b - 48) <=? 99) = true) as ->.
  { apply andb_true_iff. split; apply Z.leb_le; lia. }
  assert ((0 <=? 1000 * (49 - 48) + 100 * (57 - 48) + 10 * (Z.of_N a - 48)
                 + (Z.of_N b - 48))
          && (1000 * (49 - 48) + 100 * (57 - 48) + 10 * (Z.of_N a - 48)
              + (Z.of_N b - 48) <=? 99) = false) as ->.
  { apply andb_false_iff. right. apply Z.leb_gt. lia. }
  f_equal. f_equal. lia.
Qed.

Lemma parseDate_two_digit_year_witness :
  parseDate (str "23-09-0025") = parseDate (str "23-09-1925").
Proof.
  apply (parseDate_two_digit_year 50 51 45 48 57 45 50 53)%N; reflexivity.
Defined.

Lemma daysBeforeMonth_next (leap : bool) (y m : Z) :
  inLeapYear y = leap -> 1 <= m <= 11 ->
  daysBeforeMonth leap m = daysBeforeMonth leap (m - 1) + daysInMonth y m.
Proof.
  intros <- B. unfold daysBeforeMonth, daysInMonth.
  assert (m = 1 \/ m = 2 \/ m = 3 \/ m = 4 \/ m = 5 \/ m = 6 \/ m = 7
          \/ m = 8 \/ m = 9 \/ m = 10 \/ m = 11) as C by lia.
  destruct (inLeapYear y);
    repeat (destruct C as [->|C]; [reflexivity|]); subst; reflexivity.
Qed.

Lemma daysInMonth_pos (y m : Z) : 1 <= m <= 12 -> 28 <= daysInMonth y m <= 31.
Proof.
  intros B. unfold daysInMonth.
  assert (m = 1 \/ m = 2 \/ m = 3 \/ m = 4 \/ m = 5 \/ m = 6 \/ m = 7
          \/ m = 8 \/ m = 9 \/ m = 10 \/ m = 11 \/ m = 12) as C by lia.
  destruct (inLeapYear y);
    repeat (destruct C as [->|C]; [vm_compute; split; discriminate|]);
    subst; vm_compute; split; discriminate.
Qed.

Lemma daysBeforeMonth_mono (leap : bool) (y m m' : Z) :
  inLeapYear y = leap -> 1 <= m -> m < m' -> m' <= 12 ->
  daysBeforeMonth leap (m - 1) + daysInMonth y m <= daysBeforeMonth leap (m' - 1).
Proof.
  intros L Lo Lt Hi.
  replace m' with (m + 1 + Z.of_nat (Z.to_nat (m' - m - 1))) in * by lia.
  induction (Z.to_nat (m' - m - 1)) as [|n IH].
  - replace (m + 1 + Z.of_nat 0 - 1) with m by lia.
    rewrite (daysBeforeMonth_next leap y m L); lia.
  - assert (m + 1 + Z.of_nat n <= 12) as Hn by lia.
    specialize (IH ltac:(lia) Hn).
    replace (m + 1 + Z.of_nat (S n) - 1) with (m + 1 + Z.of_nat n) by lia.
    rewrite (daysBeforeMonth_next leap y (m + 1 + Z.of_nat n) L) by lia.
    pose proof (daysInMonth_pos y (m + 1 + Z.of_nat n) ltac:(lia)). lia.
Qed.

Lemma daysBeforeMonth_december (y : Z) :
  daysBeforeMonth (inLeapYear y) 11 + daysInMonth y 12
  = 365 + (if inLeapYear y then 1 else 0).
Proof. unfold daysBeforeMonth, daysInMonth. by destruct (inLeapYear y). Qed.

(** The day number of a calendar date grows with the date. *)
Lemma makeDay_chronological (y m d y' m' d' : Z) :
  1 <= m <= 12 -> 1 <= d <= daysInMonth y m ->
  1 <= m' <= 12 -> 1 <= d' <= daysInMonth y' m' ->
  y < y' \/ y = y' /\ (m < m' \/ m = m' /\ d < d') ->
  makeDay y (m - 1) d < makeDay y' (m' - 1) d'.
Proof.
  intros Bm Bd Bm' Bd' Lt. unfold makeDay.
  assert (forall n, 1 <= n <= 12 -> (n - 1) / 12 = 0 /\ (n - 1) mod 12 = n - 1)
    as Q.
  { intros n Bn. split.
    - apply Z.div_small. lia.
    - apply Z.mod_small. lia. }
  destruct (Q m Bm) as [-> ->]. destruct (Q m' Bm') as [-> ->].
  rewrite !Z.add_0_r.
  assert (forall yy mm dd,
             1 <= mm <= 12 -> 1 <= dd <= daysInMonth yy mm ->
             0 <= daysBeforeMonth (inLeapYear yy) (mm - 1) + dd - 1
             < 365 + (if inLeapYear yy then 1 else 0)) as Within.
  { intros yy mm dd Bmm Bdd.
    pose proof (daysBeforeMonth_bounds (inLeapYear yy) (mm - 1) ltac:(lia)).
    split; [lia|]. rewrite <- daysBeforeMonth_december.
    destruct (decide (mm = 12)) as [->|Ne]; [change (12 - 1) with 11; lia|].
    pose proof (daysBeforeMonth_mono (inLeapYear yy) yy mm 12 eq_refl
                  ltac:(lia) ltac:(lia) ltac:(lia)) as Mo.
    change (12 - 1) with 11 in Mo.
    pose proof (daysInMonth_pos yy 12 ltac:(lia)). lia. }
  destruct Lt as [Ly|[<- [Lm|[<- Ld]]]].
  - pose proof (Within y m d Bm Bd) as W. pose proof (Within y' m' d' Bm' Bd') as W'.
    pose proof (dayFromYear_succ y) as S.
    pose proof (dayFromYear_mono (y + 1) y' ltac:(lia)). lia.
  - pose proof (daysBeforeMonth_mono (inLeapYear y) y m m' eq_refl
                  ltac:(lia) Lm ltac:(lia)). lia.
  - lia.
Qed.

(** X20: for dates of the calendar the order of the keys is the order of
    the days.  Of two well-formed dates from the year 100 on (month 1 to
    12, day within the month), the earlier one gets the smaller key,
    whichever of the two separators they are written with. *)
Theorem parseDate_chronological (d dd mm yyyy d' dd' mm' yyyy' : jsstring) :
  matchDate d = Some (dd, mm, yyyy) ->
  matchDate d' = Some (dd', mm', yyyy') ->
  100 <= parseInt yyyy -> 100 <= parseInt yyyy' ->
  1 <= parseInt mm <= 12 -> 1 <= parseInt mm' <= 12 ->
  1 <= parseInt dd <= daysInMonth (parseInt yyyy) (parseInt mm) ->
  1 <= parseInt dd' <= daysInMonth (parseInt yyyy') (parseInt mm') ->
  parseInt yyyy < parseInt yyyy'
  \/ parseInt yyyy = parseInt yyyy'
     /\ (parseInt mm < parseInt mm'
         \/ parseInt mm = parseInt mm' /\ parseInt dd < parseInt dd') ->
  parseDate d < parseDate d'.
Proof.
  intros M M' Y Y' Bm Bm' Bd Bd' Lt.
  rewrite (proj2 (parseDate_matched _ _ _ _ M)).
  rewrite (proj2 (parseDate_matched _ _ _ _ M')).
  assert (forall y, 100 <= y -> (0 <=? y) && (y <=? 99) = false) as NoQuirk.
  { intros y Hy. apply andb_false_iff. right. apply Z.leb_gt. lia. }
  rewrite (NoQuirk _ Y), (NoQuirk _ Y').
  pose proof (makeDay_chronological _ _ _ _ _ _ Bm Bd Bm' Bd' Lt).
  unfold msPerDay. lia.
Qed.

Lemma parseDate_chronological_witness :
  parseDate (str "29/02/2024") < parseDate (str "01-03-2024").
Proof.
  apply (parseDate_chronological
           (str "29/02/2024") (str "29") (str "02") (str "2024")
           (str "01-03-2024") (str "01") (str "03") (str "2024"));
    try reflexivity; try (vm_compute; discriminate);
    try (vm_compute; split; discriminate).
  right. split; [reflexivity|]. left. reflexivity.
Defined.

(** * Timestamps *)

Example buildLastUpdatedTimestamp_sample :
  buildLastUpdatedTimestamp (mkDateFields 2025 7 22 10 15 30 123 (-420)) 456
  = str "2025-08-22T10:15:30.123456+07:00".
Proof. reflexivity. Qed.

Lemma digitsOf_length_le (fuel : nat) (n : N) (acc : jsstring) (k : nat) :
  (n < 10 ^ N.of_nat k)%N -> (1 <= k)%nat ->
  (length (digitsOf fuel n acc) <= k + length acc)%nat.
Proof.
  revert n acc k. induction fuel as [|fuel IH]; intros n acc k B K.
  - simpl. lia.
  - rewrite digitsOf_S. destruct (n / 10 =? 0)%N eqn:Q.
    + simpl. lia.
    + apply N.eqb_neq in Q.
      destruct k as [|[|k]]; [lia| |].
      * exfalso. apply Q. apply N.div_small. exact B.
      * assert (n / 10 < 10 ^ N.of_nat (S k))%N as B'.
        { apply N.Div0.div_lt_upper_bound.
          replace (N.of_nat (S (S k))) with (N.succ (N.of_nat (S k))) in B
            by lia.
          by rewrite N.pow_succ_r' in B. }
        specialize (IH (n / 10)%N ((48 + n mod 10)%N :: acc) (S k) B'
                      ltac:(lia)).
        simpl in IH. lia.
Qed.

Lemma parseInt_lt_pow (s : jsstring) (a : Z) :
  forallb isDigit s = true -> 0 <= a ->
  fold_left (fun acc c => 10 * acc + (Z.of_N c - 48)) s a
  < (a + 1) * 10 ^ Z.of_nat (length s).
Proof.
  revert a. induction s as [|c s IH]; intros a D A.
  - simpl. lia.
  - cbn [fold_left length]. cbn [forallb] in D.
    apply andb_true_iff in D as [Dc%digit_value D].
    specialize (IH (10 * a + (Z.of_N c - 48)) D ltac:(lia)).
    rewrite Nat2Z.inj_succ, Z.pow_succ_r by lia. nia.
Qed.

(** A number below [10^w], padded to [w] places, is [w] digits. *)
Lemma padded_digits (w : nat) (n : Z) :
  (1 <= w)%nat -> 0 <= n < 10 ^ Z.of_nat w ->
  length (padStart0 w (numberToString n)) = w /\
  forallb isDigit (padStart0 w (numberToString n)) = true.
Proof.
  intros W B. unfold numberToString.
  assert ((n <? 0) = false) as -> by (apply Z.ltb_ge; lia).
  split; [|apply padStart0_digits, toString_digits].
  unfold padStart0. rewrite length_app, repeat_length.
  assert (length (toString n) <= w)%nat; [|lia].
  unfold toString.
  pose proof (digitsOf_length_le (S (N.to_nat (N.log2 (Z.to_N n))))
                (Z.to_N n) [] w) as L.
  simpl in L. rewrite Nat.add_0_r in L. apply L; [|done].
  assert (Z.of_N (Z.to_N n) < Z.of_N (10 ^ N.of_nat w)); [|lia].
  rewrite N2Z.inj_pow, nat_N_Z. simpl. lia.
Qed.

Lemma two_chars (s : jsstring) :
  length s = 2%nat -> forallb isDigit s = true ->
  exists a b, s = [a; b] /\ isDigit a = true /\ isDigit b = true.
Proof.
  destruct s as [|a [|b [|c s]]]; try discriminate. intros _ D.
  cbn [forallb] in D. apply andb_true_iff in D as [Da [Db _]%andb_true_iff].
  by exists a, b.
Qed.

Lemma three_chars (s : jsstring) :
  length s = 3%nat -> forallb isDigit s = true ->
  exists a b c, s = [a; b; c] /\
                isDigit a = true /\ isDigit b = true /\ isDigit c = true.
Proof.
  destruct s as [|a [|b [|c [|d s]]]]; try discriminate. intros _ D.
  cbn [forallb] in D.
  apply andb_true_iff in D as [Da [Db [Dc _]%andb_true_iff]%andb_true_iff].
  by exists a, b, c.
Qed.

Lemma year_chars (y : Z) :
  1000 <= y <= 9999 ->
  exists a b c d, numberToString y = [a; b; c; d] /\
                  forallb isDigit [a; b; c; d] = true.
Proof.
  intros B.
  destruct (padded_digits 4 y ltac:(lia) ltac:(simpl; lia)) as [L D].
  unfold numberToString in *.
  assert ((y <? 0) = false) as E by (apply Z.ltb_ge; lia). rewrite E in *.
  pose proof (toString_digits y) as Dy.
  pose proof (parseInt_lt_pow (toString y) 0 Dy ltac:(lia)) as P.
  fold (parseInt (toString y)) in P. rewrite parseInt_toString in P by lia.
  unfold padStart0 in L, D. rewrite length_app, repeat_length in L.
  assert (length (toString y) = 4%nat) as L4.
  { destruct (length (toString y)) as [|[|[|[|[|n]]]]] eqn:Len;
      simpl in P, L; lia. }
  destruct (toString y) as [|a [|b [|c [|d [|e r]]]]]; try discriminate L4.
  by exists a, b, c, d.
Qed.

Lemma isTimestampShape_intro
    (y1 y2 y3 y4 m1 m2 d1 d2 hh1 hh2 mi1 mi2 s1 s2 f1 f2 f3 f4 f5 f6
       o1 o2 o3 o4 sg : char) :
  forallb isDigit [y1; y2; y3; y4] = true ->
  isDigit m1 = true -> isDigit m2 = true ->
  isDigit d1 = true -> isDigit d2 = true ->
  isDigit hh1 = true -> isDigit hh2 = true ->
  isDigit mi1 = true -> isDigit mi2 = true ->
  isDigit s1 = true -> isDigit s2 = true ->
  isDigit f1 = true -> isDigit f2 = true -> isDigit f3 = true ->
  isDigit f4 = true -> isDigit f5 = true -> isDigit f6 = true ->
  isDigit o1 = true -> isDigit o2 = true ->
  isDigit o3 = true -> isDigit o4 = true ->
  sg = 43%N \/ sg = 45%N ->
  isTimestampShape
    ([y1; y2; y3; y4] ++ str "-" ++ [m1; m2] ++ str "-" ++ [d1; d2] ++ str "T"
     ++ [hh1; hh2] ++ str ":" ++ [mi1; mi2] ++ str ":" ++ [s1; s2] ++ str "."
     ++ ([f1; f2; f3] ++ [f4; f5; f6]) ++ [sg] ++ [o1; o2] ++ str ":"
     ++ [o3; o4]) = true.
Proof.
  intros Y M1 M2 D1 D2 H1 H2 I1 I2 S1 S2 F1 F2 F3 F4 F5 F6 O1 O2 O3 O4 Sg.
  cbn [forallb] in Y.
  apply andb_true_iff in Y as [Y1 Y]. apply andb_true_iff in Y as [Y2 Y].
  apply andb_true_iff in Y as [Y3 Y]. apply andb_true_iff in Y as [Y4 _].
  change (isTimestampShape _)
    with (forallb isDigit
            [y1; y2; y3; y4; m1; m2; d1; d2; hh1; hh2; mi1; mi2; s1; s2;
             f1; f2; f3; f4; f5; f6; o1; o2; o3; o4]
          && true && true && true && true && true && true
          && ((sg =? 43) || (sg =? 45))%N && true).
  cbn [forallb].
  rewrite Y1, Y2, Y3, Y4, M1, M2, D1, D2, H1, H2, I1, I2, S1, S2,
    F1, F2, F3, F4, F5, F6, O1, O2, O3, O4.
  by destruct Sg as [-> | ->].
Qed.

(** X21: the timestamp has the shape of the patient bundle.  For a date of
    a four-digit year, with the fields in the ranges a [Date] gives them
    and an offset of less than a hundred hours, the result is
    [YYYY-MM-DDTHH:MM:SS.ffffff] followed by [+] or [-] and [HH:MM], 32
    characters in all, whatever [Math.random] returns. *)
Theorem buildLastUpdatedTimestamp_shape (now : DateFields) (random : Z) :
  1000 <= getFullYear now <= 9999 ->
  0 <= getMonth now <= 11 ->
  1 <= getDate now <= 31 ->
  0 <= getHours now <= 23 ->
  0 <= getMinutes now <= 59 ->
  0 <= getSeconds now <= 59 ->
  0 <= getMilliseconds now <= 999 ->
  -6000 < getTimezoneOffset now < 6000 ->
  0 <= random <= 999 ->
  isTimestampShape (buildLastUpdatedTimestamp now random) = true /\
  length (buildLastUpdatedTimestamp now random) = 32%nat.
Proof.
  intros By Bm Bd Bh Bi Bs Bf Bz Br.
  assert (isTimestampShape (buildLastUpdatedTimestamp now random) = true) as S.
  { unfold buildLastUpdatedTimestamp.
    destruct (year_chars _ By) as (y1 & y2 & y3 & y4 & -> & Dy).
    assert (forall n, 0 <= n <= 99 ->
              exists a b, padStart0 2 (numberToString n) = [a; b] /\
                          isDigit a = true /\ isDigit b = true) as Two.
    { intros n Bn. apply two_chars;
        apply (padded_digits 2 n); simpl; lia. }
    assert (forall n, 0 <= n <= 999 ->
              exists a b c, padStart0 3 (numberToString n) = [a; b; c] /\
                            isDigit a = true /\ isDigit b = true /\
                            isDigit c = true) as Three.
    { intros n Bn. apply three_chars;
        apply (padded_digits 3 n); simpl; lia. }
    destruct (Two (getMonth now + 1) ltac:(lia)) as (m1 & m2 & -> & ? & ?).
    destruct (Two (getDate now) ltac:(lia)) as (d1 & d2 & -> & ? & ?).
    destruct (Two (getHours now) ltac:(lia)) as (h1 & h2 & -> & ? & ?).
    destruct (Two (getMinutes now) ltac:(lia)) as (i1 & i2 & -> & ? & ?).
    destruct (Two (getSeconds now) ltac:(lia)) as (s1 & s2 & -> & ? & ?).
    destruct (Three (getMilliseconds now) ltac:(lia))
      as (f1 & f2 & f3 & -> & ? & ? & ?).
    destruct (Three random ltac:(lia)) as (f4 & f5 & f6 & -> & ? & ? & ?).
    assert (0 <= Z.abs (- getTimezoneOffset now) / 60 <= 99) as Bo.
    { split; [apply Z.div_pos; lia|].
      apply Z.lt_succ_r, Z.div_lt_upper_bound; lia. }
    pose proof (Z.mod_pos_bound (Z.abs (- getTimezoneOffset now)) 60
                  ltac:(lia)) as Bq.
    destruct (Two _ Bo) as (o1 & o2 & -> & ? & ?).
    destruct (Two (Z.abs (- getTimezoneOffset now) mod 60) ltac:(lia))
      as (o3 & o4 & -> & ? & ?).
    destruct (- getTimezoneOffset now >=? 0);
      by apply isTimestampShape_intro; auto. }
  split; [exact S|].
  destruct (buildLastUpdatedTimestamp now random)
    as [|? [|? [|? [|? [|? [|? [|? [|? [|? [|? [|? [|? [|? [|? [|? [|?
       [|? [|? [|? [|? [|? [|? [|? [|? [|? [|? [|? [|? [|? [|? [|? [|?
       [|? ?]]]]]]]]]]]]]]]]]]]]]]]]]]]]]]]]]; try discriminate S.
  reflexivity.
Qed.

Lemma buildLastUpdatedTimestamp_shape_witness :
  isTimestampShape
    (buildLastUpdatedTimestamp (mkDateFields 2025 7 22 10 15 30 123 (-420)) 7)
  = true.
Proof.
  apply (buildLastUpdatedTimestamp_shape
           (mkDateFields 2025 7 22 10 15 30 123 (-420)) 7); simpl; lia.
Defined.
